(** * beatboxer: a shallow embedding of [beatboxer/beatboxer.py]

    The development follows the Python module top to bottom: the [Mlist]
    cell type, the [BeatBoxer] engine with its tempo fields, the template
    editor [_edit_template], the renderer [make_a_beat] and the beat store
    ([store_beat], [switch_current_beat], [edit_current_beat]).

    Python objects that the program mutates in place and shares -- the
    [Mlist] cells of a template -- live in an explicit object store
    ([heap]); a template is the list of the addresses of its cells.  Outer
    template lists and the beat dictionaries are never mutated by the
    program, so they are modelled by value.  An exception leaves every
    mutation made before it in place, so a computation returns its outcome
    together with the state it reached. *)

From Stdlib Require Import ZArith Lia List Ascii String Bool.
From stdpp Require Import base option list strings gmap.
Import ListNotations.

Local Open Scope string_scope.
Local Open Scope list_scope.
Local Open Scope Z_scope.

(** ** Audio (pydub's AudioSegment, at millisecond granularity)

    pydub is an external collaborator.  The program only ever asks a segment
    for its length in milliseconds ([len]), builds silence, concatenates and
    overlays.  A segment is modelled by that length and by the list of the
    clips sounding in it, each with its onset. *)

Record AudioSegment := mkAudio {
  ms : Z;                          (* len(segment) *)
  sounds : list (Z * string)       (* (onset in ms, clip name) *)
}.

(** [AudioSegment.silent(duration)]: a negative duration gives an empty
    segment. *)
Definition silent (duration : Z) : AudioSegment :=
  mkAudio (Z.max 0 duration) [].

Definition shift (by_ms : Z) (l : list (Z * string)) : list (Z * string) :=
  map (fun e => (fst e + by_ms, snd e)) l.

(** [a + b]: concatenation. *)
Definition audio_add (a b : AudioSegment) : AudioSegment :=
  mkAudio (ms a + ms b) (sounds a ++ shift (ms a) (sounds b)).

(** [a.overlay(b, position=p)] for [p >= 0]: the result has the length of
    [a]; what of [b] would start at or after the end of [a] is dropped.
    The positions the engine computes are not negative as long as [_spb]
    is not; pydub slices [a] from its end at a negative position and may
    raise there, which this definition does not follow: statements that a
    render returns are made for [0 <= _spb]. *)
Definition overlay (a b : AudioSegment) (position : Z) : AudioSegment :=
  mkAudio (ms a)
    (sounds a ++ List.filter (fun e => bool_decide (fst e < ms a)) (shift position (sounds b))).

(** A clip of the library, as [AudioSegment.from_wav] delivers it. *)
Definition clip (name : string) (length_ms : Z) : AudioSegment :=
  mkAudio length_ms [(0, name)].

(** ** Cells: [class Mlist(list)] *)

Abbreviation Mlist := (list string).

(** [list.remove(n)]: drops the first occurrence. *)
Fixpoint list_remove (n : string) (l : Mlist) : Mlist :=
  match l with
  | [] => []
  | x :: r => if bool_decide (x = n) then r else x :: list_remove n r
  end.

Definition _cappend (self : Mlist) (n : string) : Mlist :=
  if bool_decide (n ∈ self) then self else self ++ [n].

Definition _cremove (self : Mlist) (n : string) : Mlist :=
  if bool_decide (n ∈ self) then list_remove n self else self.

Definition cchange (self : Mlist) (n : string) (etype : string) : Mlist :=
  if bool_decide (etype = "append") then _cappend self n
  else if bool_decide (etype = "remove") then _cremove self n
  else self.

(** ** Beats and the engine object *)

(** Address of an [Mlist] object in the store. *)
Abbreviation loc := nat.

(** The dictionary built at the end of [make_a_beat]. *)
Record Beat := mkBeat {
  beat_audio : AudioSegment;
  beat_beats_per_measure : Z;
  beat_bpm : Z;
  beat_num_measures : Z;
  beat_base_note : Z;
  beat_measure : list loc;
  beat_repeatable : bool
}.

(** The instance attributes of [BeatBoxer]. *)
Record BeatBoxer := mkBeatBoxer {
  bpm : Z;
  base_note : Z;
  save_path : option string;
  _bpm : Z;
  _spb : Z;
  current_beat : option Beat;
  stored_beats : gmap string (option Beat)
}.

(** The instance, the class attribute [oneshots] and the object store. *)
Record World := mkWorld {
  self : BeatBoxer;
  oneshots : gmap string AudioSegment;
  heap : list Mlist
}.

Definition with_self (f : BeatBoxer -> BeatBoxer) (w : World) : World :=
  mkWorld (f (self w)) (oneshots w) (heap w).

Definition with_heap (f : list Mlist -> list Mlist) (w : World) : World :=
  mkWorld (self w) (oneshots w) (f (heap w)).

Definition set_bpm (v : Z) (b : BeatBoxer) : BeatBoxer :=
  mkBeatBoxer v (base_note b) (save_path b) (_bpm b) (_spb b)
              (current_beat b) (stored_beats b).

Definition set_base_note (v : Z) (b : BeatBoxer) : BeatBoxer :=
  mkBeatBoxer (bpm b) v (save_path b) (_bpm b) (_spb b)
              (current_beat b) (stored_beats b).

Definition set__bpm (v : Z) (b : BeatBoxer) : BeatBoxer :=
  mkBeatBoxer (bpm b) (base_note b) (save_path b) v (_spb b)
              (current_beat b) (stored_beats b).

Definition set__spb (v : Z) (b : BeatBoxer) : BeatBoxer :=
  mkBeatBoxer (bpm b) (base_note b) (save_path b) (_bpm b) v
              (current_beat b) (stored_beats b).

Definition set_current_beat (v : option Beat) (b : BeatBoxer) : BeatBoxer :=
  mkBeatBoxer (bpm b) (base_note b) (save_path b) (_bpm b) (_spb b)
              v (stored_beats b).

Definition set_stored_beats (v : gmap string (option Beat)) (b : BeatBoxer) : BeatBoxer :=
  mkBeatBoxer (bpm b) (base_note b) (save_path b) (_bpm b) (_spb b)
              (current_beat b) v.

(** ** Exceptions and the computation monad *)

Inductive exn :=
| Exception_base_note (n : Z)       (* "base_note can't be ... It must be a power of 2." *)
| Exception_edit_type (e : string)  (* "Unknown edit type: ..." *)
| Exception_beat_exists             (* "Audio already exists in self.current_beat..." *)
| ZeroDivisionError
| IndexError
| KeyError (k : string)
| TypeError
| UnmodelledPayload                 (* a shortcut value of another shape than its key documents *)
| DanglingAddress.                  (* an address outside the store; no Python object is one *)

Inductive outcome (A : Type) :=
| Returned (a : A)
| Raised (e : exn).
Arguments Returned {A} a.
Arguments Raised {A} e.

Definition Py (A : Type) : Type := World -> outcome A * World.

Definition ret {A} (a : A) : Py A := fun w => (Returned a, w).
Definition raise {A} (e : exn) : Py A := fun w => (Raised e, w).
Definition bind {A B} (m : Py A) (k : A -> Py B) : Py B :=
  fun w => match m w with
           | (Returned a, w') => k a w'
           | (Raised e, w') => (Raised e, w')
           end.
Definition get : Py World := fun w => (Returned w, w).
Definition modify (f : World -> World) : Py unit := fun w => (Returned tt, f w).

Declare Scope py_scope.
Delimit Scope py_scope with py.
Notation "'let*' x ':=' m 'in' k" := (bind m (fun x => k))
  (at level 10, x name, m at level 100, k at level 200) : py_scope.
Notation "m ;;; k" := (bind m (fun _ => k))
  (at level 100, k at level 200, right associativity) : py_scope.
Local Open Scope py_scope.

(** [for x in l: body x] *)
Fixpoint for_each {A} (l : list A) (body : A -> Py unit) : Py unit :=
  match l with
  | [] => ret tt
  | x :: r => body x ;;; for_each r body
  end.

(** [for x in l: acc = body acc x] *)
Fixpoint for_fold {A S} (l : list A) (body : S -> A -> Py S) (acc : S) : Py S :=
  match l with
  | [] => ret acc
  | x :: r => let* acc' := body acc x in for_fold r body acc'
  end.

(** [range(n)] as a list of integers; empty for n <= 0. *)
Definition range (n : Z) : list Z := map Z.of_nat (seq 0 (Z.to_nat n)).

(** [l[i]] on a Python list, with negative indices counted from the end. *)
Definition py_getitem {A} (l : list A) (i : Z) : Py A :=
  let n := Z.of_nat (length l) in
  let j := if bool_decide (i < 0) then i + n else i in
  if bool_decide (0 <= j < n)
  then match l !! Z.to_nat j with
       | Some x => ret x
       | None => raise IndexError
       end
  else raise IndexError.

(** [a % b] *)
Definition py_mod (a b : Z) : Py Z :=
  if bool_decide (b = 0) then raise ZeroDivisionError else ret (a mod b).

(** [a // b] *)
Definition py_floordiv (a b : Z) : Py Z :=
  if bool_decide (b = 0) then raise ZeroDivisionError else ret (a / b).

(** Reading and mutating an [Mlist] object. *)
Definition read_cell (c : loc) : Py Mlist :=
  fun w => match heap w !! c with
           | Some content => (Returned content, w)
           | None => (Raised DanglingAddress, w)
           end.

Definition write_cell (c : loc) (content : Mlist) : Py unit :=
  modify (with_heap (fun h => <[c := content]> h)).

(** [Mlist(x)]: a new object holding a copy of the elements. *)
Definition new_Mlist (content : Mlist) : Py loc :=
  fun w => (Returned (length (heap w)), with_heap (fun h => h ++ [content]) w).

(** [cell.cchange(n, etype)] on the object at [cell]. *)
Definition cchange_at (cell : loc) (n : string) (etype : string) : Py unit :=
  let* content := read_cell cell in
  write_cell cell (cchange content n etype).

(** ** Shortcut keys and values

    [**shortcuts] is a dictionary from keyword to value, iterated in
    insertion order: an association list (a Python dictionary has no
    duplicate keys).  Values have the shapes the docstring of [make_a_beat]
    documents; [VStr] is there for a keyword that Python binds to the
    parameter [etype]. *)

Inductive value :=
| VNames (names : list string)                  (* ['hihat', 'kick'] *)
| VPairs (pairs : list (string * Z))            (* [('kick', 1), ('snare', 2)] *)
| VSingle (beats : list (string * list Z))      (* {'hihat': [1, 2, 3], 'snare': [5, 9]} *)
| VStr (s : string).

Abbreviation kwargs := (list (string * value)).

(** *** The regular expression [every_(\d+)(?:st|nd|rd|th)]

    Keys are ASCII text here, so [\d] is one of 0..9. *)

Definition is_digit (c : ascii) : bool :=
  let n := nat_of_ascii c in (48 <=? n)%nat && (n <=? 57)%nat.

Fixpoint strip_prefix (p s : string) : option string :=
  match p, s with
  | EmptyString, _ => Some s
  | String a p', String b s' => if bool_decide (a = b) then strip_prefix p' s' else None
  | String _ _, EmptyString => None
  end.

(** The longest run of digits at the head of [s], and what follows it. *)
Fixpoint span_digits (s : string) : string * string :=
  match s with
  | String c r =>
      if is_digit c
      then (String c (fst (span_digits r)), snd (span_digits r))
      else (EmptyString, s)
  | EmptyString => (EmptyString, EmptyString)
  end.

(** The pattern matched at the very start of [s]; the result is group 1.
    [\d+] is greedy, and giving a digit back never helps, since the suffix
    starts with a letter: only the longest run can match. *)
Definition match_every_nth (s : string) : option string :=
  match strip_prefix "every_" s with
  | Some r =>
      let d := fst (span_digits r) in
      let rest := snd (span_digits r) in
      if bool_decide (d = EmptyString) then None
      else if existsb (fun suffix => bool_decide (is_Some (strip_prefix suffix rest)))
                      ["st"; "nd"; "rd"; "th"]
           then Some d else None
  | None => None
  end.

(** [re.findall(pattern, s)], of which the program uses the truth value and
    element [0]: [None] for the empty list, else group 1 of the leftmost
    match. *)
Fixpoint findall_every_nth (s : string) : option string :=
  match match_every_nth s with
  | Some d => Some d
  | None => match s with
            | String _ r => findall_every_nth r
            | EmptyString => None
            end
  end.

(** [int(digits)] *)
Definition int (digits : string) : Z :=
  fold_left (fun acc c => 10 * acc + (Z.of_nat (nat_of_ascii c) - 48))
            (list_ascii_of_string digits) 0.

(** ** The template editor: [_edit_template] *)

(** [measure[ind_beat].cchange(oneshot, etype)] *)
Definition cchange_index (measure : list loc) (etype : string)
    (oneshot : string) (ind_beat : Z) : Py unit :=
  let* cell := py_getitem measure ind_beat in
  cchange_at cell oneshot etype.

Definition edit_every_beat (measure : list loc) (etype : string)
    (names : list string) : Py unit :=
  for_each (range (Z.of_nat (length measure))) (fun ind_beat =>
    for_each names (fun oneshot =>
      cchange_index measure etype oneshot ind_beat)).

(** Lines 341-342: one [(name, offset)] pair at one beat. *)
Definition every_nth_step (measure : list loc) (etype : string) (nth : Z)
    (ind_beat : Z) (oneshot : string * Z) : Py unit :=
  if bool_decide (ind_beat >= snd oneshot)
  then let* r := py_mod (ind_beat - snd oneshot) nth in
       if bool_decide (r = 0)
       then cchange_index measure etype (fst oneshot) ind_beat
       else ret tt
  else ret tt.

Definition edit_every_nth (measure : list loc) (etype : string) (nth : Z)
    (pairs : list (string * Z)) : Py unit :=
  for_each (range (Z.of_nat (length measure))) (fun ind_beat =>
    for_each pairs (every_nth_step measure etype nth ind_beat)).

Definition edit_single (measure : list loc) (etype : string)
    (beats : list (string * list Z)) : Py unit :=
  for_each beats (fun item =>
    for_each (snd item) (cchange_index measure etype (fst item))).

(** The body of [for shortcut in shortcuts]. *)
Definition edit_shortcut (measure : list loc) (etype : string)
    (shortcut : string) (v : value) : Py unit :=
  if bool_decide (shortcut = "every_beat") then
    match v with
    | VNames names => edit_every_beat measure etype names
    | _ => raise UnmodelledPayload
    end
  else match findall_every_nth shortcut with
  | Some digits =>
    match v with
    | VPairs pairs => edit_every_nth measure etype (int digits) pairs
    | _ => raise UnmodelledPayload
    end
  | None =>
    if bool_decide (shortcut = "single") then
      match v with
      | VSingle beats => edit_single measure etype beats
      | _ => raise UnmodelledPayload
      end
    else ret tt
  end.

Definition _edit_template (measure : list loc) (etype : string)
    (shortcuts : kwargs) : Py (list loc) :=
  if bool_decide (etype ∈ ["append"; "remove"]) then
    for_each shortcuts (fun kv => edit_shortcut measure etype (fst kv) (snd kv)) ;;;
    ret measure
  else raise (Exception_edit_type etype).

(** *** Calling [self._edit_template(measure, [etype,] **kw)]

    A keyword named like a parameter is bound to that parameter and does
    not arrive in [shortcuts]: [self] and [measure] are always given
    positionally, so such a keyword is a [TypeError]; [etype] is one too
    when given positionally, and otherwise the keyword sets it. *)

Fixpoint kw_get (k : string) (kw : kwargs) : option value :=
  match kw with
  | [] => None
  | (k', v) :: r => if bool_decide (k' = k) then Some v else kw_get k r
  end.

Definition kw_del (k : string) (kw : kwargs) : kwargs :=
  List.filter (fun kv => negb (bool_decide (fst kv = k))) kw.

Definition call__edit_template (measure : list loc) (etype : option string)
    (kw : kwargs) : Py (list loc) :=
  if bool_decide (is_Some (kw_get "self" kw) \/ is_Some (kw_get "measure" kw))
  then raise TypeError
  else match etype, kw_get "etype" kw with
       | Some e, Some _ => raise TypeError
       | Some e, None => _edit_template measure e kw
       | None, Some (VStr e) => _edit_template measure e (kw_del "etype" kw)
       | None, Some _ => raise (Exception_edit_type "")   (* not a string at all *)
       | None, None => _edit_template measure "append" kw
       end.

(** ** The engine: tempo *)

(** [bool(base_note & (base_note - 1)) or not base_note] *)
Definition base_note_rejected (n : Z) : bool :=
  negb (Z.land n (n - 1) =? 0) || (n =? 0).

(** [BeatBoxer.__init__]: the new instance, or the exception that ends the
    construction. *)
Definition __init__ (bpm base_note : Z) (save_path : option string)
    : outcome BeatBoxer :=
  if base_note_rejected base_note then Raised (Exception_base_note base_note)
  else
    let _bpm := (base_note / 4) * bpm in
    if bool_decide (_bpm = 0) then Raised ZeroDivisionError
    else Returned (mkBeatBoxer bpm base_note save_path _bpm (60000 / _bpm) None ∅).

Definition change_bpm (new_bpm : option Z) : Py unit :=
  match new_bpm with
  | None => ret tt
  | Some v =>
      modify (with_self (set_bpm v)) ;;;
      let* w := get in
      modify (with_self (set__bpm ((base_note (self w) / 4) * bpm (self w)))) ;;;
      let* w := get in
      let* q := py_floordiv 60000 (_bpm (self w)) in
      modify (with_self (set__spb q))
  end.

Definition change_base_note (new_base_note : option Z) : Py unit :=
  match new_base_note with
  | None => ret tt
  | Some v =>
      if base_note_rejected v then raise (Exception_base_note v)
      else
        modify (with_self (set_base_note v)) ;;;
        let* w := get in
        modify (with_self (set__bpm ((base_note (self w) / 4) * bpm (self w)))) ;;;
        let* w := get in
        let* q := py_floordiv 60000 (_bpm (self w)) in
        modify (with_self (set__spb q))
  end.

(** ** The engine: templates and rendering *)

(** [empty(num_beats)]: [[Mlist() for _ in range(num_beats)]] *)
Definition empty (num_beats : Z) : Py (list loc) :=
  for_fold (range num_beats)
    (fun acc _ => let* c := new_Mlist [] in ret (acc ++ [c])) [].

(** [self.oneshots[x]] *)
Definition oneshot (x : string) : Py AudioSegment :=
  fun w => match oneshots w !! x with
           | Some a => (Returned a, w)
           | None => (Raised (KeyError x), w)
           end.

Definition _max_len (names : Mlist) : Py Z :=
  match names with
  | [] => ret 0
  | x :: r =>
      let* first := oneshot x in
      for_fold r (fun acc y => let* a := oneshot y in ret (Z.max acc (ms a)))
               (ms first)
  end.

(** [enumerate(l)] *)
Definition enumerate {A} (l : list A) : list (Z * A) :=
  combine (range (Z.of_nat (length l))) l.

(** [[Mlist(x) for x in measure]] *)
Definition copy_measure (measure : list loc) : Py (list loc) :=
  for_fold measure
    (fun acc x => let* content := read_cell x in
                  let* c := new_Mlist content in
                  ret (acc ++ [c])) [].

(** Lines 184-186: the additions to the template. *)
Definition prepare (measure : list loc) (_no_add : bool) (shortcuts : kwargs)
    : Py (list loc) :=
  if _no_add then ret measure
  else let* copies := copy_measure measure in
       call__edit_template copies None shortcuts.

(** Lines 208-214: all the sounds of one beat, overlaid. *)
Definition combine_beat_sounds (beat_measure : Mlist) (max_len : Z)
    : Py AudioSegment :=
  for_fold beat_measure
    (fun combined beat_sound =>
       let* sound := oneshot beat_sound in
       ret (overlay combined (audio_add sound (silent (max_len - ms sound))) 0))
    (silent max_len).

(** Lines 191-193: the silent canvas. *)
Definition canvas (measure : list loc) (beat_length : Z) (repeatable : bool)
    : Py AudioSegment :=
  let beat := silent beat_length in
  if repeatable then ret beat
  else let* last := py_getitem measure (-1) in
       let* content := read_cell last in
       let* tail := _max_len content in
       ret (audio_add beat (silent tail)).

(** Lines 198-219: one beat of one measure, overlaid on the canvas. *)
Definition render_beat (spb measure_length beat_length ind_measure : Z)
    (beat : AudioSegment) (ib : Z * loc) : Py AudioSegment :=
  let ind_beat := fst ib in
  let* beat_measure := read_cell (snd ib) in
  match beat_measure with
  | [] => ret beat
  | _ =>
    let* max_len := _max_len beat_measure in
    let offset := ind_measure * measure_length + ind_beat * spb in
    let* combined_beat_sounds := combine_beat_sounds beat_measure max_len in
    ret (overlay beat
           (audio_add combined_beat_sounds
                      (silent (beat_length - max_len - offset)))
           offset)
  end.

(** Lines 188-224: the canvas, the overlays and the new current beat. *)
Definition render (measure : list loc) (num_measures : Z) (repeatable : bool)
    : Py unit :=
  let* w := get in
  let spb := _spb (self w) in
  let measure_length := spb * Z.of_nat (length measure) in
  let beat_length := measure_length * num_measures in
  let* beat := canvas measure beat_length repeatable in
  let* beat :=
    for_fold (range num_measures) (fun beat ind_measure =>
      for_fold (enumerate measure)
               (render_beat spb measure_length beat_length ind_measure) beat)
      beat in
  let* w := get in
  modify (with_self (set_current_beat (Some
    {| beat_audio := beat;
       beat_beats_per_measure := Z.of_nat (length measure);
       beat_bpm := bpm (self w);
       beat_num_measures := num_measures;
       beat_base_note := base_note (self w);
       beat_measure := measure;
       beat_repeatable := repeatable |}))).

Definition make_a_beat (measure : list loc) (num_measures : Z)
    (repeatable _no_add : bool) (shortcuts : kwargs) : Py unit :=
  let* measure := prepare measure _no_add shortcuts in
  render measure num_measures repeatable.

(** ** The engine: the beat store *)

(** [self.stored_beats[name] = self.current_beat]; the current beat may be
    [None], and is stored as such. *)
Definition store_beat (name : string) : Py unit :=
  modify (with_self (fun b =>
    set_stored_beats (<[name := current_beat b]> (stored_beats b)) b)).

Definition switch_current_beat (name : string) (force : bool) : Py unit :=
  let* w := get in
  if bool_decide (is_Some (current_beat (self w))) && negb force
  then raise Exception_beat_exists
  else match stored_beats (self w) !! name with
       | Some b => modify (with_self (set_current_beat b))
       | None => raise (KeyError name)
       end.

(** [a or b] where [a] is [None] or an integer. *)
Definition or_int (a : option Z) (b : Z) : Z :=
  match a with
  | Some v => if bool_decide (v = 0) then b else v
  | None => b
  end.

(** [a or b] where [a] is [None] or a boolean. *)
Definition or_bool (a : option bool) (b : bool) : bool :=
  match a with
  | Some true => true
  | _ => b
  end.

Definition edit_current_beat (bpm' base_note' num_measures : option Z)
    (repeatable : option bool) (remove add : kwargs) : Py unit :=
  let* w := get in
  let old_bpm := bpm (self w) in
  change_bpm bpm' ;;;
  let* w := get in
  let old_base_note := base_note (self w) in
  change_base_note base_note' ;;;
  let* w := get in
  match current_beat (self w) with
  | None => raise TypeError
  | Some cur =>
      let measure := beat_measure cur in
      call__edit_template measure None add ;;;
      call__edit_template measure (Some "remove") remove ;;;
      make_a_beat measure
        (or_int num_measures (beat_num_measures cur))
        (or_bool repeatable (beat_repeatable cur)) true [] ;;;
      change_bpm (Some old_bpm) ;;;
      change_base_note (Some old_base_note)
  end.

(** ** The engine: adding a clip ([add_oneshot])

    Decoding the file is the work of pydub: [from_file] stands for
    [AudioSegment.from_file(path, ftype)], which returns a segment or
    raises; [sep] is [os.path.sep]. *)

(** [s[-n:]] *)
Definition str_last (n : nat) (s : string) : string :=
  let l := list_ascii_of_string s in
  string_of_list_ascii (drop (length l - n) l).

(** [s[:-n]] for [n > 0] *)
Definition str_drop_last (n : nat) (s : string) : string :=
  let l := list_ascii_of_string s in
  string_of_list_ascii (take (length l - n) l).

(** [s.split(sep)[-1]]: what follows the last separator, [s] itself when
    there is none.  [cur] is the candidate so far. *)
Fixpoint split_last_aux (sep : ascii) (s cur : string) : string :=
  match s with
  | EmptyString => cur
  | String c r =>
      if bool_decide (c = sep) then split_last_aux sep r r
      else split_last_aux sep r cur
  end.

Definition split_last (sep : ascii) (s : string) : string :=
  split_last_aux sep s s.

(** [name or default] where [name] is [None] or a string. *)
Definition or_str (name : option string) (default : string) : string :=
  match name with
  | Some n => if bool_decide (n = EmptyString) then default else n
  | None => default
  end.

Definition add_oneshot (sep : ascii)
    (from_file : string -> string -> outcome AudioSegment)
    (oneshot_path : string) (name : option string) : Py unit :=
  let ftype := str_last 3 oneshot_path in
  let name := or_str name (str_drop_last 4 (split_last sep oneshot_path)) in
  let* segment := (fun w => (from_file oneshot_path ftype, w)) in
  modify (fun w => mkWorld (self w) (<[name := segment]> (oneshots w)) (heap w)).

(** * Vocabulary of the statements *)

Definition power_of_two (n : Z) : Prop := exists k, 0 <= k /\ n = 2 ^ k.

(** The keys that [edit_shortcut] acts on. *)
Definition recognized (shortcut : string) : bool :=
  bool_decide (shortcut = "every_beat")
  || bool_decide (is_Some (findall_every_nth shortcut))
  || bool_decide (shortcut = "single").

(** Cell [i] is touched by an every-Nth entry with this offset. *)
Definition nth_touches (nth offset i : Z) : bool :=
  bool_decide (i >= offset) && bool_decide ((i - offset) mod nth = 0).

(** What an every-Nth shortcut makes of the cell at index [i]. *)
Definition cell_after_every_nth (etype : string) (nth : Z)
    (pairs : list (string * Z)) (i : Z) (cell : Mlist) : Mlist :=
  fold_left (fun c p => if nth_touches nth (snd p) i
                        then cchange c (fst p) etype else c) pairs cell.

(** Every cell of the template is an object of the store. *)
Definition allocated (w : World) (measure : list loc) : Prop :=
  Forall (fun c => (c < length (heap w))%nat) measure.

(** The template as cell contents. *)
Definition contents (w : World) (measure : list loc) : list (option Mlist) :=
  map (fun c => heap w !! c) measure.

(** The length of the longest clip among [names]; 0 for no name. *)
Definition longest (lib : gmap string AudioSegment) (names : Mlist) : Z :=
  match names with
  | [] => 0
  | x :: r =>
      fold_left (fun acc y => Z.max acc (from_option ms 0 (lib !! y))) r
                (from_option ms 0 (lib !! x))
  end.

(** The clip is in the library. *)
Definition known (w : World) (n : string) : bool :=
  bool_decide (is_Some (oneshots w !! n)).

(** The cell is in the store and names clips of the library only. *)
Definition cell_ok (w : World) (c : loc) : bool :=
  match heap w !! c with
  | Some cell => forallb (known w) cell
  | None => false
  end.

Definition playable (w : World) (measure : list loc) : bool :=
  forallb (cell_ok w) measure.

(** The content of [measure[-1]]. *)
Definition last_cell (w : World) (measure : list loc) : Mlist :=
  match last measure with
  | Some c => default [] (heap w !! c)
  | None => []
  end.

(** The last cell that is not empty, in the words of the specification. *)
Definition spec_final_nonempty_cell (cells : list Mlist) : Mlist :=
  default [] (last (List.filter (fun c => negb (bool_decide (c = []))) cells)).

(** *** A concrete studio *)

Definition library : gmap string AudioSegment :=
  list_to_map [("hihat", clip "hihat" 120); ("kick", clip "kick" 300);
               ("snare", clip "snare" 250); ("clap", clip "clap" 200);
               ("crash", clip "crash" 1500); ("bass", clip "bass" 700)].

(** [BeatBoxer(bpm=120, base_note=4)] with no object allocated yet. *)
Definition studio : World :=
  mkWorld (mkBeatBoxer 120 4 None 120 500 None ∅) library [].

(** The same engine with a four-cell template at addresses 0..3. *)
Definition studio4 (c0 c1 c2 c3 : Mlist) : World :=
  mkWorld (mkBeatBoxer 120 4 None 120 500 None ∅) library [c0; c1; c2; c3].


(** *** Vocabulary of the further properties *)

(** The tempo fields of the engine agree: [_bpm] and [_spb] are what the
    constructor and the tempo changes compute from [bpm] and [base_note]. *)
Definition tempo_ok (b : BeatBoxer) : Prop :=
  _bpm b = base_note b / 4 * bpm b
  /\ _bpm b <> 0
  /\ _spb b = 60000 / _bpm b.

(** From [w] to [w'] nothing but cells of [measure] has changed. *)
Definition edits_only (measure : list loc) (w w' : World) : Prop :=
  self w' = self w
  /\ oneshots w' = oneshots w
  /\ length (heap w') = length (heap w)
  /\ (forall c, c ∉ measure -> heap w' !! c = heap w !! c).

(** No cell of the store names a clip twice. *)
Definition cells_nodup (w : World) : Prop := Forall NoDup (heap w).

(** What an every-beat shortcut makes of a cell. *)
Definition cell_after_every_beat (etype : string) (names : list string)
    (cell : Mlist) : Mlist :=
  fold_left (fun c n => cchange c n etype) names cell.

(** All characters are decimal digits. *)
Definition all_digits (s : string) : bool :=
  forallb is_digit (list_ascii_of_string s).

(** Every run of [m], whatever its outcome, changes nothing but cells of
    [measure], and keeps the cells of the store duplicate-free. *)
Definition confined {A} (measure : list loc) (m : Py A) : Prop :=
  forall w r w', m w = (r, w') ->
    edits_only measure w w' /\ (cells_nodup w -> cells_nodup w').

(** Every run of [m], whatever its outcome, leaves the state as it was. *)
Definition reads {A} (m : Py A) : Prop :=
  forall w r w', m w = (r, w') -> w' = w.

(** * Properties *)

(** ** The computation monad *)

Lemma bind_returned {A B} (m : Py A) (k : A -> Py B) w a w' :
  m w = (Returned a, w') -> bind m k w = k a w'.
Proof. intros H. unfold bind. rewrite H. reflexivity. Qed.

Lemma bind_raised {A B} (m : Py A) (k : A -> Py B) w e w' :
  m w = (Raised e, w') -> bind m k w = (Raised e, w').
Proof. intros H. unfold bind. rewrite H. reflexivity. Qed.

Lemma world_eta w : mkWorld (self w) (oneshots w) (heap w) = w.
Proof. destruct w; reflexivity. Qed.

(** [empty(4)] in the concrete studio: four empty cells at addresses 0..3. *)
Example empty_four :
  empty 4 studio = (Returned [0; 1; 2; 3]%nat, studio4 [] [] [] []).
Proof. reflexivity. Qed.

(** ** Tempo validation *)

Lemma land_even_odd a b : Z.land (2 * a) (2 * b + 1) = 2 * Z.land a b.
Proof.
  apply Z.bits_inj'. intros n Hn.
  rewrite Z.land_spec.
  destruct (Z.eq_dec n 0) as [->|Hne].
  - rewrite Z.testbit_even_0, Z.testbit_even_0. reflexivity.
  - replace n with (Z.succ (n - 1)) by lia.
    rewrite Z.testbit_even_succ, Z.testbit_odd_succ, Z.testbit_even_succ by lia.
    rewrite Z.land_spec. reflexivity.
Qed.

Lemma land_odd_even a b : Z.land (2 * a + 1) (2 * b) = 2 * Z.land a b.
Proof. rewrite Z.land_comm, land_even_odd, Z.land_comm. reflexivity. Qed.

Lemma power_of_two_pos n : power_of_two n -> 0 < n.
Proof. intros (k & Hk & ->). apply Z.pow_pos_nonneg; lia. Qed.

Lemma power_of_two_double n : 0 < n -> power_of_two (2 * n) <-> power_of_two n.
Proof.
  intros Hn. split.
  - intros (k & Hk & E). destruct (Z.eq_dec k 0) as [->|Hne].
    + simpl in E. lia.
    + exists (k - 1). split; [lia|].
      replace k with (Z.succ (k - 1)) in E by lia.
      rewrite Z.pow_succ_r in E by lia. lia.
  - intros (k & Hk & E). exists (Z.succ k). split; [lia|].
    rewrite Z.pow_succ_r by lia. lia.
Qed.

Lemma power_of_two_odd n : 0 < n -> ~ power_of_two (2 * n + 1).
Proof.
  intros Hn (k & Hk & E). destruct (Z.eq_dec k 0) as [->|Hne].
  - simpl in E. lia.
  - replace k with (Z.succ (k - 1)) in E by lia.
    rewrite Z.pow_succ_r in E by lia. lia.
Qed.

Lemma pos_land_pred_pow2 (p : positive) :
  Z.land (Z.pos p) (Z.pos p - 1) = 0 <-> power_of_two (Z.pos p).
Proof.
  induction p as [q IH|q IH|].
  - replace (Z.pos q~1 - 1) with (2 * Z.pos q) by lia.
    replace (Z.pos q~1) with (2 * Z.pos q + 1) by lia.
    rewrite land_odd_even, Z.land_diag.
    pose proof (power_of_two_odd (Z.pos q)). split; [lia|]. intros P. exfalso. apply H; [lia|exact P].
  - replace (Z.pos q~0 - 1) with (2 * (Z.pos q - 1) + 1) by lia.
    replace (Z.pos q~0) with (2 * Z.pos q) by lia.
    rewrite land_even_odd, power_of_two_double by lia.
    rewrite <- IH. lia.
  - split; [|reflexivity]. intros _. exists 0. split; [lia|reflexivity].
Qed.

Lemma base_note_accepted_iff n :
  base_note_rejected n = false <-> power_of_two n.
Proof.
  unfold base_note_rejected.
  rewrite orb_false_iff, negb_false_iff, Z.eqb_eq, Z.eqb_neq.
  destruct n as [|p|p].
  - split; [tauto|]. intros P. apply power_of_two_pos in P. lia.
  - rewrite pos_land_pred_pow2. split; [tauto|]. intros P. split; [exact P|lia].
  - split.
    + intros [H _].
      assert (Z.land (Z.neg p) (Z.neg p - 1) < 0) by (apply Z.land_neg; lia). lia.
    + intros P. apply power_of_two_pos in P. lia.
Qed.

Lemma base_note_rejected_iff n :
  base_note_rejected n = true <-> n = 0 \/ ~ power_of_two n.
Proof.
  pose proof (base_note_accepted_iff n) as H.
  destruct (base_note_rejected n); split; intros G.
  - right. intros P. apply H in P. discriminate.
  - reflexivity.
  - discriminate.
  - exfalso. assert (P : power_of_two n) by (apply H; reflexivity).
    destruct G as [->|N]; [apply power_of_two_pos in P; lia|tauto].
Qed.

Lemma power_of_two_ge_4 n : power_of_two n -> 4 <= n -> 1 <= n / 4.
Proof. intros _ H. apply Z.div_le_lower_bound; lia. Qed.

Lemma change_bpm_Some v w :
  change_bpm (Some v) w =
    let w1 := with_self (set__bpm (base_note (self w) / 4 * v))
                        (with_self (set_bpm v) w) in
    if bool_decide (base_note (self w) / 4 * v = 0)
    then (Raised ZeroDivisionError, w1)
    else (Returned tt, with_self (set__spb (60000 / (base_note (self w) / 4 * v))) w1).
Proof.
  unfold change_bpm, bind, modify, get, py_floordiv, raise, ret. simpl.
  case_bool_decide; reflexivity.
Qed.

Lemma change_base_note_Some v w :
  change_base_note (Some v) w =
    if base_note_rejected v then (Raised (Exception_base_note v), w)
    else
      let w1 := with_self (set__bpm (v / 4 * bpm (self w)))
                          (with_self (set_base_note v) w) in
      if bool_decide (v / 4 * bpm (self w) = 0)
      then (Raised ZeroDivisionError, w1)
      else (Returned tt, with_self (set__spb (60000 / (v / 4 * bpm (self w)))) w1).
Proof.
  unfold change_base_note. destruct (base_note_rejected v); [reflexivity|].
  unfold bind, modify, get, py_floordiv, raise, ret. simpl.
  case_bool_decide; reflexivity.
Qed.

(** C3, as the code has it.  The base-note exception is raised exactly when
    [base_note] is zero or not a power of two, by the constructor and by
    [change_base_note] alike, whatever [bpm] is; [change_bpm] never raises
    it, so [bpm] is not validated.  For every [bpm > 0] and every power of
    two [base_note >= 4] (4, 8, 16, ...) the constructor and both
    tempo-change operations succeed; 0, 3, 5 and 6 raise the exception. *)
Theorem tempo_validation (bpm' n : Z) (sp : option string) :
  (__init__ bpm' n sp = Raised (Exception_base_note n)
     <-> (n = 0 \/ ~ power_of_two n))
  /\ (forall w, fst (change_base_note (Some n) w) = Raised (Exception_base_note n)
                <-> (n = 0 \/ ~ power_of_two n))
  /\ (forall w e, fst (change_bpm (Some bpm') w) <> Raised (Exception_base_note e))
  /\ (0 < bpm' -> power_of_two n -> 4 <= n ->
      (exists b, __init__ bpm' n sp = Returned b
                 /\ bpm b = bpm' /\ base_note b = n
                 /\ _spb b = 60000 / (n / 4 * bpm'))
      /\ (forall w, 0 < bpm (self w) ->
                    fst (change_base_note (Some n) w) = Returned tt)
      /\ (forall w, base_note (self w) = n ->
                    fst (change_bpm (Some bpm') w) = Returned tt))
  /\ (n ∈ [0; 3; 5; 6] -> __init__ bpm' n sp = Raised (Exception_base_note n)).
Proof.
  assert (I : __init__ bpm' n sp = Raised (Exception_base_note n)
              <-> (n = 0 \/ ~ power_of_two n)).
  { rewrite <- base_note_rejected_iff. unfold __init__.
    destruct (base_note_rejected n); [tauto|].
    case_bool_decide; split; discriminate. }
  split; [exact I|]. split; [|split; [|split]].
  - intros w. rewrite <- base_note_rejected_iff, change_base_note_Some.
    destruct (base_note_rejected n); [simpl; tauto|].
    simpl. case_bool_decide; split; discriminate.
  - intros w e. rewrite change_bpm_Some. simpl. case_bool_decide; discriminate.
  - intros Hb P H4. pose proof (power_of_two_ge_4 n P H4) as Hq.
    apply base_note_accepted_iff in P.
    split; [|split].
    + unfold __init__. rewrite P.
      rewrite bool_decide_eq_false_2 by nia. eexists. split; [reflexivity|]. auto.
    + intros w Hw. rewrite change_base_note_Some, P. simpl.
      rewrite bool_decide_eq_false_2 by nia. reflexivity.
    + intros w Hw. rewrite change_bpm_Some, Hw. simpl.
      rewrite bool_decide_eq_false_2 by nia. reflexivity.
  - intros Hn. apply I. apply base_note_rejected_iff.
    rewrite !elem_of_cons, elem_of_nil in Hn.
    destruct Hn as [->|[->|[->|[->|Hn]]]]; [reflexivity..|inversion Hn].
Qed.

(** The theorem at [bpm = 120]: 8 is accepted, 6 is rejected. *)
Lemma tempo_validation_witness :
  (exists b, __init__ 120 8 None = Returned b
             /\ bpm b = 120 /\ base_note b = 8 /\ _spb b = 60000 / (8 / 4 * 120))
  /\ __init__ 120 6 None = Raised (Exception_base_note 6).
Proof.
  destruct (tempo_validation 120 8 None) as (_ & _ & _ & H & _).
  destruct (tempo_validation 120 6 None) as (_ & _ & _ & _ & H6).
  split.
  - apply H; [lia| exists 3; split; [lia|reflexivity] | lia].
  - apply H6. rewrite !elem_of_cons. auto.
Defined.

(** C3, as the specification words it, fails where [bpm <= 0]: the
    constructor accepts [bpm = -5]. *)
Lemma tempo_nonpositive_bpm_accepted :
  -5 <= 0
  /\ __init__ (-5) 4 None
     = Returned (mkBeatBoxer (-5) 4 None (-5) (-12000) None ∅).
Proof. split; [lia|reflexivity]. Qed.

(** C10.  [edit_current_beat] with a new [bpm > 0] and a [base_note] that
    is zero or not a power of two ends in an exception, and the engine's
    [bpm] is then the requested one, not the one before the call.  On an
    engine whose own base note is at least 4, the exception is the
    base-note one, raised after [change_bpm] has completed. *)
Theorem edit_current_beat_bad_base_note_keeps_new_bpm
    (w : World) (b n : Z) (num_measures : option Z) (repeatable : option bool)
    (remove add : kwargs) :
  0 < b ->
  n = 0 \/ ~ power_of_two n ->
  let r := edit_current_beat (Some b) (Some n) num_measures repeatable remove add w in
  (exists e, fst r = Raised e)
  /\ bpm (self (snd r)) = b
  /\ (4 <= base_note (self w) ->
      r = (Raised (Exception_base_note n), snd (change_bpm (Some b) w))
      /\ fst (change_bpm (Some b) w) = Returned tt).
Proof.
  intros Hb Hn r. subst r. apply base_note_rejected_iff in Hn.
  pose proof (change_bpm_Some b w) as E. cbv zeta in E.
  destruct (decide (base_note (self w) / 4 * b = 0)) as [Hz|Hz].
  - rewrite bool_decide_eq_true_2 in E by exact Hz.
    assert (R : edit_current_beat (Some b) (Some n) num_measures repeatable remove add w
                = change_bpm (Some b) w).
    { unfold edit_current_beat. erewrite bind_returned by reflexivity.
      erewrite bind_raised by exact E. symmetry. exact E. }
    rewrite R, E. simpl. split; [eauto|]. split; [reflexivity|].
    intros H4. exfalso.
    assert (1 <= base_note (self w) / 4) by (apply Z.div_le_lower_bound; lia). nia.
  - rewrite bool_decide_eq_false_2 in E by exact Hz.
    assert (R : edit_current_beat (Some b) (Some n) num_measures repeatable remove add w
                = (Raised (Exception_base_note n), snd (change_bpm (Some b) w))).
    { unfold edit_current_beat. erewrite bind_returned by reflexivity.
      erewrite bind_returned by exact E. erewrite bind_returned by reflexivity.
      erewrite bind_raised; [rewrite E; reflexivity|].
      rewrite change_base_note_Some, Hn. reflexivity. }
    rewrite R. rewrite E. simpl. split; [eauto|]. split; [reflexivity|].
    intros _. split; reflexivity.
Qed.

(** The theorem at [bpm=140, base_note=6] on an engine at 120. *)
Lemma edit_current_beat_bad_base_note_witness :
  bpm (self studio) = 120
  /\ bpm (self (snd (edit_current_beat (Some 140) (Some 6) None None [] [] studio))) = 140.
Proof.
  split; [reflexivity|].
  apply (edit_current_beat_bad_base_note_keeps_new_bpm studio 140 6 None None [] []).
  - lia.
  - right. intros P. apply base_note_accepted_iff in P. discriminate P.
Defined.

(** ** Cells and indexing *)

Lemma cchange_at_allocated cell n etype w content :
  heap w !! cell = Some content ->
  cchange_at cell n etype w
  = (Returned tt, with_heap (fun h => <[cell := cchange content n etype]> h) w).
Proof. intros H. unfold cchange_at, bind, read_cell. rewrite H. reflexivity. Qed.

Lemma py_getitem_nat {A} (l : list A) (i : nat) x w :
  l !! i = Some x -> py_getitem l (Z.of_nat i) w = (Returned x, w).
Proof.
  intros H. unfold py_getitem. cbv zeta. pose proof (lookup_lt_Some _ _ _ H).
  rewrite (bool_decide_eq_false_2 (Z.of_nat i < 0)) by lia.
  rewrite bool_decide_eq_true_2 by lia.
  rewrite Nat2Z.id, H. reflexivity.
Qed.

Lemma cchange_index_allocated measure etype n (i : nat) c content w :
  measure !! i = Some c -> heap w !! c = Some content ->
  cchange_index measure etype n (Z.of_nat i) w
  = (Returned tt, with_heap (fun h => <[c := cchange content n etype]> h) w).
Proof.
  intros Hi Hc. unfold cchange_index.
  erewrite bind_returned by (apply py_getitem_nat; exact Hi).
  apply cchange_at_allocated. exact Hc.
Qed.

Lemma with_heap_insert_id w c content :
  heap w !! c = Some content -> with_heap (fun h => <[c := content]> h) w = w.
Proof.
  intros H. unfold with_heap. rewrite list_insert_id by exact H. apply world_eta.
Qed.

(** ** The every-Nth shortcut *)

Lemma every_nth_step_allocated measure etype nth (i : nat) p c content w :
  nth <> 0 -> measure !! i = Some c -> heap w !! c = Some content ->
  every_nth_step measure etype nth (Z.of_nat i) p w
  = (Returned tt,
     with_heap (fun h => <[c := cell_after_every_nth etype nth [p] (Z.of_nat i) content]> h) w).
Proof.
  intros Hn Hi Hc. unfold every_nth_step, cell_after_every_nth, nth_touches. simpl.
  case_bool_decide as Hge; simpl.
  - unfold py_mod. rewrite bool_decide_eq_false_2 by exact Hn.
    erewrite bind_returned by reflexivity.
    case_bool_decide as Hr.
    + eapply cchange_index_allocated; eauto.
    + rewrite with_heap_insert_id by exact Hc. reflexivity.
  - rewrite with_heap_insert_id by exact Hc. reflexivity.
Qed.

Lemma every_nth_inner measure etype nth (i : nat) c :
  nth <> 0 -> measure !! i = Some c ->
  forall pairs content w, heap w !! c = Some content ->
  for_each pairs (every_nth_step measure etype nth (Z.of_nat i)) w
  = (Returned tt,
     with_heap (fun h => <[c := cell_after_every_nth etype nth pairs (Z.of_nat i) content]> h) w).
Proof.
  intros Hn Hi. induction pairs as [|p ps IH]; intros content w Hc.
  - simpl. rewrite with_heap_insert_id by exact Hc. reflexivity.
  - simpl for_each.
    erewrite bind_returned by (eapply every_nth_step_allocated; eauto).
    pose proof (lookup_lt_Some _ _ _ Hc) as Hlt.
    erewrite IH by (simpl; apply list_lookup_insert_eq; exact Hlt).
    unfold with_heap. simpl. rewrite list_insert_insert_eq. reflexivity.
Qed.

Lemma every_nth_outer measure etype nth pairs :
  nth <> 0 -> NoDup measure ->
  forall (idxs : list nat) w,
    NoDup idxs -> Forall (fun i => (i < length measure)%nat) idxs ->
    allocated w measure ->
    exists w',
      for_each (map Z.of_nat idxs)
               (fun ind_beat => for_each pairs (every_nth_step measure etype nth ind_beat)) w
      = (Returned tt, w')
      /\ self w' = self w /\ oneshots w' = oneshots w
      /\ length (heap w') = length (heap w)
      /\ (forall i c, measure !! i = Some c ->
            heap w' !! c =
            (if bool_decide (i ∈ idxs)
             then cell_after_every_nth etype nth pairs (Z.of_nat i)
             else id) <$> heap w !! c)
      /\ (forall c, c ∉ measure -> heap w' !! c = heap w !! c).
Proof.
  intros Hn Hnd. induction idxs as [|i0 idxs IH]; intros w Hi Hlt Hal.
  - exists w. simpl. repeat split; try reflexivity.
    intros i c _. destruct (heap w !! c); reflexivity.
  - apply NoDup_cons in Hi as [Hi0 Hi]. apply Forall_cons in Hlt as [Hlt0 Hlt].
    destruct (lookup_lt_is_Some_2 _ _ Hlt0) as [c0 Hc0].
    assert (Hc0lt : (c0 < length (heap w))%nat).
    { unfold allocated in Hal. rewrite Forall_forall in Hal. apply Hal.
      eapply list_elem_of_lookup_2; eauto. }
    destruct (lookup_lt_is_Some_2 _ _ Hc0lt) as [content0 Hcontent0].
    set (w1 := with_heap (fun h => <[c0 := cell_after_every_nth etype nth pairs (Z.of_nat i0) content0]> h) w).
    destruct (IH w1 Hi Hlt) as (w' & E & Hs & Ho & Hl & Hin & Hout).
    { unfold allocated, w1. simpl. rewrite length_insert. exact Hal. }
    exists w'. simpl map. simpl for_each.
    erewrite bind_returned by (eapply every_nth_inner; eauto).
    split; [exact E|]. split; [rewrite Hs; reflexivity|].
    split; [rewrite Ho; reflexivity|].
    split; [rewrite Hl; unfold w1; simpl; apply length_insert|].
    split.
    + intros i c Hc. rewrite (Hin i c Hc). unfold w1. simpl.
      destruct (decide (i = i0)) as [->|Hne].
      * assert (c = c0) by congruence. subst c.
        rewrite list_lookup_insert_eq by exact Hc0lt.
        rewrite bool_decide_eq_false_2 by exact Hi0.
        rewrite bool_decide_eq_true_2 by apply list_elem_of_here.
        rewrite Hcontent0. reflexivity.
      * assert (c <> c0).
        { intros E'. subst c. apply Hne. exact (NoDup_lookup _ _ _ _ Hnd Hc Hc0). }
        rewrite list_lookup_insert_ne by congruence.
        destruct (decide (i ∈ idxs)) as [Hm|Hm].
        -- rewrite (bool_decide_eq_true_2 (i ∈ idxs)) by exact Hm.
           rewrite (bool_decide_eq_true_2 (i ∈ i0 :: idxs))
             by (apply list_elem_of_further; exact Hm).
           reflexivity.
        -- rewrite (bool_decide_eq_false_2 (i ∈ idxs)) by exact Hm.
           rewrite (bool_decide_eq_false_2 (i ∈ i0 :: idxs))
             by (rewrite elem_of_cons; tauto).
           reflexivity.
    + intros c Hc. rewrite (Hout c Hc). unfold w1. simpl.
      apply list_lookup_insert_ne. intros ->. apply Hc.
      eapply list_elem_of_lookup_2; eauto.
Qed.

Lemma edit_every_nth_spec measure etype nth pairs w :
  nth <> 0 -> NoDup measure -> allocated w measure ->
  exists w',
    edit_every_nth measure etype nth pairs w = (Returned tt, w')
    /\ self w' = self w /\ oneshots w' = oneshots w
    /\ length (heap w') = length (heap w)
    /\ (forall i c, measure !! i = Some c ->
          heap w' !! c
          = cell_after_every_nth etype nth pairs (Z.of_nat i) <$> heap w !! c)
    /\ (forall c, c ∉ measure -> heap w' !! c = heap w !! c).
Proof.
  intros Hn Hnd Hal.
  destruct (every_nth_outer measure etype nth pairs Hn Hnd (seq 0 (length measure)) w)
    as (w' & E & Hs & Ho & Hl & Hin & Hout).
  - apply NoDup_seq.
  - apply Forall_forall. intros i Hi. apply elem_of_seq in Hi. lia.
  - exact Hal.
  - exists w'. unfold edit_every_nth, range. rewrite Nat2Z.id.
    repeat (split; [assumption|]). split; [|exact Hout].
    intros i c Hc. rewrite (Hin i c Hc).
    rewrite bool_decide_eq_true_2; [reflexivity|].
    apply elem_of_seq. pose proof (lookup_lt_Some _ _ _ Hc). lia.
Qed.

Lemma edit_shortcut_every_nth measure etype key digits pairs w :
  findall_every_nth key = Some digits ->
  edit_shortcut measure etype key (VPairs pairs) w
  = edit_every_nth measure etype (int digits) pairs w.
Proof.
  intros H. unfold edit_shortcut. case_bool_decide as E.
  - subst key. vm_compute in H. discriminate H.
  - rewrite H. reflexivity.
Qed.

Lemma _edit_template_one measure etype key v w :
  etype ∈ ["append"; "remove"] ->
  _edit_template measure etype [(key, v)] w
  = (edit_shortcut measure etype key v ;;; ret measure) w.
Proof.
  intros He. unfold _edit_template. rewrite bool_decide_eq_true_2 by exact He.
  simpl. unfold bind. destruct (edit_shortcut measure etype key v w) as [[[]|e] w1];
    reflexivity.
Qed.

(** C5.  An every-Nth shortcut (a key in which the pattern finds N > 0)
    applied to a template of distinct cells returns normally and leaves
    every cell as follows: the cell at index [i] has received, in the order
    of the pairs, the change for each pair [(name, offset)] with
    [i >= offset] and [(i - offset) mod N = 0], and no other change; cells
    outside the template, the engine and the clip library are as before. *)
Theorem every_nth_touches_exactly
    (w : World) (measure : list loc) (etype key digits : string)
    (pairs : list (string * Z)) :
  etype ∈ ["append"; "remove"] ->
  findall_every_nth key = Some digits ->
  0 < int digits ->
  NoDup measure ->
  allocated w measure ->
  exists w',
    _edit_template measure etype [(key, VPairs pairs)] w = (Returned measure, w')
    /\ self w' = self w /\ oneshots w' = oneshots w
    /\ length (heap w') = length (heap w)
    /\ (forall i c, measure !! i = Some c ->
          heap w' !! c
          = fold_left (fun cell p =>
                         if bool_decide (Z.of_nat i >= snd p)
                            && bool_decide ((Z.of_nat i - snd p) mod int digits = 0)
                         then cchange cell (fst p) etype else cell) pairs
            <$> heap w !! c)
    /\ (forall c, c ∉ measure -> heap w' !! c = heap w !! c).
Proof.
  intros He Hk Hn Hnd Hal.
  destruct (edit_every_nth_spec measure etype (int digits) pairs w)
    as (w' & E & Hs & Ho & Hl & Hin & Hout); [lia|assumption|assumption|].
  exists w'. rewrite _edit_template_one by exact He.
  erewrite bind_returned
    by (rewrite (edit_shortcut_every_nth _ _ _ digits) by exact Hk; exact E).
  split; [reflexivity|]. split; [exact Hs|]. split; [exact Ho|].
  split; [exact Hl|]. split; [exact Hin|exact Hout].
Qed.

(** The theorem at N = 4, offset 1, on sixteen empty cells: the cells
    touched are 1, 5, 9 and 13. *)
Lemma every_nth_touches_exactly_witness :
  let w16 := mkWorld (self studio) library (replicate 16 []) in
  (exists w',
    _edit_template (seq 0 16) "append" [("every_4th", VPairs [("snare", 1)])] w16
    = (Returned (seq 0 16), w')
    /\ self w' = self w16 /\ oneshots w' = oneshots w16
    /\ length (heap w') = length (heap w16)
    /\ (forall i c, seq 0 16 !! i = Some c ->
          heap w' !! c
          = fold_left (fun cell p =>
                         if bool_decide (Z.of_nat i >= snd p)
                            && bool_decide ((Z.of_nat i - snd p) mod int "4" = 0)
                         then cchange cell (fst p) "append" else cell) [("snare", 1)]
            <$> heap w16 !! c)
    /\ (forall c, c ∉ seq 0 16 -> heap w' !! c = heap w16 !! c))
  /\ List.filter (fun i => nth_touches 4 1 i) (range 16) = [1; 5; 9; 13]
  /\ heap (snd (_edit_template (seq 0 16) "append"
                               [("every_4th", VPairs [("snare", 1)])] w16))
     = [[]; ["snare"]; []; []; []; ["snare"]; []; [];
        []; ["snare"]; []; []; []; ["snare"]; []; []].
Proof.
  intros w16. split; [|split; reflexivity].
  apply (every_nth_touches_exactly w16 (seq 0 16) "append" "every_4th" "4" [("snare", 1)]).
  - apply list_elem_of_here.
  - reflexivity.
  - reflexivity.
  - apply NoDup_seq.
  - apply Forall_forall. intros c Hc. apply elem_of_seq in Hc. simpl. lia.
Defined.

(** ** Keys that are no shortcut *)

Lemma edit_shortcut_unrecognized measure etype k v w :
  recognized k = false -> edit_shortcut measure etype k v w = (Returned tt, w).
Proof.
  unfold recognized. rewrite !orb_false_iff. intros [[H1 H2] H3].
  unfold edit_shortcut. rewrite H1.
  destruct (findall_every_nth k) eqn:E.
  - apply bool_decide_eq_false in H2. exfalso. apply H2. eauto.
  - rewrite H3. reflexivity.
Qed.

Lemma for_each_skip {A} (body : A -> Py unit) (x : A) (pre post : list A) :
  (forall w, body x w = (Returned tt, w)) ->
  forall w, for_each (pre ++ x :: post) body w = for_each (pre ++ post) body w.
Proof.
  intros Hx. induction pre as [|a pre IH]; intros w; simpl; unfold bind.
  - rewrite Hx. reflexivity.
  - destruct (body a w) as [[[]|e] w1]; [apply IH|reflexivity].
Qed.

(** C2, as the code has it.  A key that is none of [every_beat], a key the
    every-Nth pattern matches, or [single] is skipped: handling it raises
    nothing and changes nothing, and the batch has the effect and the
    outcome of the batch without it. *)
Theorem unrecognized_shortcut_is_skipped
    (measure : list loc) (etype k : string) (v : value)
    (pre post : kwargs) (w : World) :
  recognized k = false ->
  edit_shortcut measure etype k v w = (Returned tt, w)
  /\ _edit_template measure etype (pre ++ (k, v) :: post) w
     = _edit_template measure etype (pre ++ post) w.
Proof.
  intros Hk. split; [apply edit_shortcut_unrecognized; exact Hk|].
  unfold _edit_template. case_bool_decide; [|reflexivity].
  unfold bind. rewrite for_each_skip; [reflexivity|].
  intros w0. apply edit_shortcut_unrecognized. exact Hk.
Qed.

(** The theorem at the key [every_other] between two shortcuts. *)
Lemma unrecognized_shortcut_is_skipped_witness :
  edit_shortcut [0; 1]%nat "append" "every_other" (VNames ["kick"]) (studio4 [] [] [] [])
  = (Returned tt, studio4 [] [] [] [])
  /\ _edit_template [0; 1]%nat "append"
       ([("every_beat", VNames ["hihat"])] ++ ("every_other", VNames ["kick"])
          :: [("single", VSingle [("snare", [1])])]) (studio4 [] [] [] [])
     = _edit_template [0; 1]%nat "append"
       ([("every_beat", VNames ["hihat"])] ++ [("single", VSingle [("snare", [1])])])
       (studio4 [] [] [] []).
Proof.
  apply unrecognized_shortcut_is_skipped. reflexivity.
Defined.

(** C2, as the specification words it, fails: an unknown key raises
    nothing, and the shortcut after it is still applied. *)
Lemma unknown_shortcut_raises_nothing :
  recognized "every_other" = false
  /\ _edit_template [0; 1; 2; 3]%nat "append"
       [("every_other", VNames ["kick"]); ("every_beat", VNames ["kick"])]
       (studio4 [] [] [] [])
     = (Returned [0; 1; 2; 3]%nat, studio4 ["kick"] ["kick"] ["kick"] ["kick"]).
Proof. split; reflexivity. Qed.

(** ** Indices and offsets outside the template *)

Lemma py_getitem_out_of_range {A} (l : list A) (i : Z) w :
  i < - Z.of_nat (length l) \/ Z.of_nat (length l) <= i ->
  py_getitem l i w = (Raised IndexError, w).
Proof.
  intros H. unfold py_getitem. cbv zeta.
  destruct (decide (i < 0)) as [Hneg|Hpos].
  - rewrite (bool_decide_eq_true_2 (i < 0)) by exact Hneg.
    rewrite bool_decide_eq_false_2 by lia. reflexivity.
  - rewrite (bool_decide_eq_false_2 (i < 0)) by exact Hpos.
    rewrite bool_decide_eq_false_2 by lia. reflexivity.
Qed.

Lemma py_getitem_negative {A} (l : list A) (i : Z) w :
  - Z.of_nat (length l) <= i < 0 ->
  py_getitem l i w = py_getitem l (i + Z.of_nat (length l)) w.
Proof.
  intros H. unfold py_getitem. cbv zeta.
  rewrite (bool_decide_eq_true_2 (i < 0)) by lia.
  rewrite (bool_decide_eq_false_2 (i + Z.of_nat (length l) < 0)) by lia.
  reflexivity.
Qed.

Lemma single_one measure etype name i w :
  etype ∈ ["append"; "remove"] ->
  _edit_template measure etype [("single", VSingle [(name, [i])])] w
  = (cchange_index measure etype name i ;;; ret measure) w.
Proof.
  intros He. rewrite _edit_template_one by exact He.
  unfold edit_shortcut. simpl. unfold edit_single. simpl. unfold bind.
  destruct (cchange_index measure etype name i w) as [[[]|e] w1]; reflexivity.
Qed.

Lemma every_nth_step_before_offset measure etype nth i p w :
  i < snd p -> every_nth_step measure etype nth i p w = (Returned tt, w).
Proof.
  intros H. unfold every_nth_step. rewrite bool_decide_eq_false_2 by lia. reflexivity.
Qed.

Lemma edit_every_nth_offset_beyond measure etype nth name off w :
  Z.of_nat (length measure) <= off ->
  edit_every_nth measure etype nth [(name, off)] w = (Returned tt, w).
Proof.
  intros H. unfold edit_every_nth, range. rewrite Nat2Z.id.
  assert (G : forall idxs : list nat,
             Forall (fun i => (i < length measure)%nat) idxs ->
             for_each (map Z.of_nat idxs)
               (fun ind_beat => for_each [(name, off)]
                                  (every_nth_step measure etype nth ind_beat)) w
             = (Returned tt, w)).
  { induction idxs as [|i idxs IH]; intros Hlt; [reflexivity|].
    apply Forall_cons in Hlt as [Hi Hlt]. simpl.
    unfold bind. rewrite every_nth_step_before_offset by (simpl; lia).
    simpl. apply IH. exact Hlt. }
  apply G. apply Forall_forall. intros i Hi. apply elem_of_seq in Hi. lia.
Qed.

(** C6, as the code has it.  A [single] index [i] on a template of [len]
    cells raises [IndexError] when [i < -len] or [i >= len], and then
    nothing has been changed; an index in [-len .. -1] is no error and
    stands for [i + len]; an index in [0 .. len-1] changes that cell.  An
    every-Nth offset is not checked against the template: an offset
    [>= len] changes nothing and raises nothing, and a negative offset
    raises nothing either and selects the cells [j] with
    [(j - offset) mod N = 0]. *)
Theorem index_bounds_as_coded
    (w : World) (measure : list loc) (etype name : string) (i : Z) :
  etype ∈ ["append"; "remove"] ->
  let len := Z.of_nat (length measure) in
  let single i :=
    _edit_template measure etype [("single", VSingle [(name, [i])])] w in
  (i < - len \/ len <= i -> single i = (Raised IndexError, w))
  /\ (- len <= i < 0 -> single i = single (i + len))
  /\ (0 <= i < len ->
      forall c content,
        measure !! Z.to_nat i = Some c -> heap w !! c = Some content ->
        single i
        = (Returned measure,
           with_heap (fun h => <[c := cchange content name etype]> h) w))
  /\ (forall key digits,
        findall_every_nth key = Some digits ->
        let every_nth off :=
          _edit_template measure etype [(key, VPairs [(name, off)])] w in
        (len <= i -> every_nth i = (Returned measure, w))
        /\ (i < 0 -> 0 < int digits -> NoDup measure -> allocated w measure ->
            exists w',
              every_nth i = (Returned measure, w')
              /\ forall j c, measure !! j = Some c ->
                   heap w' !! c
                   = (if bool_decide ((Z.of_nat j - i) mod int digits = 0)
                      then fun cell => cchange cell name etype else id)
                     <$> heap w !! c)).
Proof.
  intros He len single. subst single. cbv beta.
  split; [|split; [|split]].
  - intros Hi. rewrite single_one by exact He.
    unfold cchange_index.
    erewrite bind_raised; [reflexivity|].
    erewrite bind_raised; [reflexivity|]. apply py_getitem_out_of_range. exact Hi.
  - intros Hi. rewrite !single_one by exact He.
    unfold bind, cchange_index, bind. rewrite py_getitem_negative by exact Hi.
    reflexivity.
  - intros Hi c content Hc Hcontent. rewrite single_one by exact He.
    erewrite bind_returned; [reflexivity|].
    replace i with (Z.of_nat (Z.to_nat i)) by lia.
    eapply cchange_index_allocated; eauto.
  - intros key digits Hk every_nth. subst every_nth. cbv beta. split.
    + intros Hi. rewrite _edit_template_one by exact He.
      erewrite bind_returned; [reflexivity|].
      rewrite (edit_shortcut_every_nth _ _ _ digits) by exact Hk.
      apply edit_every_nth_offset_beyond. exact Hi.
    + intros Hi Hn Hnd Hal.
      destruct (edit_every_nth_spec measure etype (int digits) [(name, i)] w)
        as (w' & E & _ & _ & _ & Hin & _); [lia|assumption|assumption|].
      exists w'. rewrite _edit_template_one by exact He.
      erewrite bind_returned
        by (rewrite (edit_shortcut_every_nth _ _ _ digits) by exact Hk; exact E).
      split; [reflexivity|].
      intros j c Hc. rewrite (Hin j c Hc).
      unfold cell_after_every_nth, nth_touches. simpl.
      rewrite (bool_decide_eq_true_2 (Z.of_nat j >= i)) by lia. simpl.
      destruct (heap w !! c); simpl; [|reflexivity].
      case_bool_decide; reflexivity.
Qed.

(** The theorem on four cells, at the indices 4 and -1 and the offset 4. *)
Lemma index_bounds_as_coded_witness :
  let w := studio4 [] [] [] [] in
  _edit_template [0; 1; 2; 3]%nat "append" [("single", VSingle [("kick", [4])])] w
  = (Raised IndexError, w)
  /\ _edit_template [0; 1; 2; 3]%nat "append" [("single", VSingle [("kick", [-1])])] w
     = _edit_template [0; 1; 2; 3]%nat "append" [("single", VSingle [("kick", [3])])] w
  /\ _edit_template [0; 1; 2; 3]%nat "append" [("every_4th", VPairs [("kick", 4)])] w
     = (Returned [0; 1; 2; 3]%nat, w).
Proof.
  intros w.
  destruct (index_bounds_as_coded w [0; 1; 2; 3]%nat "append" "kick" 4
              (list_elem_of_here _ _)) as (A & _ & _ & D).
  destruct (index_bounds_as_coded w [0; 1; 2; 3]%nat "append" "kick" (-1)
              (list_elem_of_here _ _)) as (_ & B & _).
  split; [apply A; simpl; lia|].
  split; [apply B; simpl; lia|].
  apply (D "every_4th" "4"); [reflexivity|simpl; lia].
Defined.

(** C6, as the specification words it, fails: an every-Nth offset beyond
    the template and a negative [single] index are both taken without an
    error; the first changes nothing, the second changes the last cell. *)
Lemma out_of_range_values_raise_nothing :
  let w := studio4 [] [] [] [] in
  ~ (0 <= 7 <= 3)
  /\ _edit_template [0; 1; 2; 3]%nat "append" [("every_4th", VPairs [("snare", 7)])] w
     = (Returned [0; 1; 2; 3]%nat, w)
  /\ ~ (0 <= -1 <= 3)
  /\ _edit_template [0; 1; 2; 3]%nat "append" [("single", VSingle [("snare", [-1])])] w
     = (Returned [0; 1; 2; 3]%nat, studio4 [] [] [] ["snare"]).
Proof.
  intros w. split; [lia|]. split; [reflexivity|]. split; [lia|reflexivity].
Qed.

(** ** Rendering *)

Lemma oneshot_known x a w :
  oneshots w !! x = Some a -> oneshot x w = (Returned a, w).
Proof. intros H. unfold oneshot. rewrite H. reflexivity. Qed.

Lemma known_lookup w n :
  known w n = true -> exists a, oneshots w !! n = Some a.
Proof. unfold known. intros H. apply bool_decide_eq_true in H. exact H. Qed.

Lemma _max_len_known w names :
  forallb (known w) names = true ->
  _max_len names w = (Returned (longest (oneshots w) names), w).
Proof.
  destruct names as [|x r]; [reflexivity|].
  simpl. rewrite andb_true_iff. intros [Hx Hr].
  destruct (known_lookup _ _ Hx) as [a Ha].
  erewrite bind_returned by (apply oneshot_known; exact Ha).
  rewrite Ha. simpl. generalize (ms a) as acc.
  induction r as [|y r IH]; intros acc; [reflexivity|].
  simpl in Hr. apply andb_true_iff in Hr as [Hy Hr].
  destruct (known_lookup _ _ Hy) as [b Hb].
  simpl. erewrite bind_returned
    by (erewrite bind_returned by (apply oneshot_known; exact Hb); reflexivity).
  rewrite Hb. simpl. apply IH. exact Hr.
Qed.

Lemma combine_beat_sounds_known w names max_len :
  forallb (known w) names = true ->
  exists a, combine_beat_sounds names max_len w = (Returned a, w)
            /\ ms a = Z.max 0 max_len.
Proof.
  unfold combine_beat_sounds.
  assert (G : forall acc,
             forallb (known w) names = true ->
             exists a,
               for_fold names
                 (fun combined beat_sound =>
                    let* sound := oneshot beat_sound in
                    ret (overlay combined
                           (audio_add sound (silent (max_len - ms sound))) 0))
                 acc w = (Returned a, w)
               /\ ms a = ms acc).
  { induction names as [|x r IH]; intros acc Hk.
    - exists acc. split; reflexivity.
    - simpl in Hk. apply andb_true_iff in Hk as [Hx Hr].
      destruct (known_lookup _ _ Hx) as [s Hs].
      destruct (IH (overlay acc (audio_add s (silent (max_len - ms s))) 0) Hr)
        as (a & E & Hm).
      exists a. simpl.
      erewrite bind_returned
        by (erewrite bind_returned by (apply oneshot_known; exact Hs); reflexivity).
      split; [exact E|]. rewrite Hm. reflexivity. }
  intros Hk. destruct (G (silent max_len) Hk) as (a & E & Hm).
  exists a. split; [exact E|]. rewrite Hm. reflexivity.
Qed.


Lemma cell_ok_lookup w c :
  cell_ok w c = true ->
  exists cell, heap w !! c = Some cell /\ forallb (known w) cell = true.
Proof. unfold cell_ok. destruct (heap w !! c) as [cell|]; [eauto|discriminate]. Qed.

Lemma read_cell_allocated w c cell :
  heap w !! c = Some cell -> read_cell c w = (Returned cell, w).
Proof. intros H. unfold read_cell. rewrite H. reflexivity. Qed.

Lemma render_beat_ok w spb measure_length beat_length ind_measure beat ib :
  cell_ok w (snd ib) = true ->
  exists beat',
    render_beat spb measure_length beat_length ind_measure beat ib w
    = (Returned beat', w)
    /\ ms beat' = ms beat.
Proof.
  intros H. destruct (cell_ok_lookup _ _ H) as (cell & Hc & Hk).
  unfold render_beat.
  erewrite bind_returned by (apply read_cell_allocated; exact Hc).
  destruct cell as [|x r]; [exists beat; split; reflexivity|].
  erewrite bind_returned by (apply _max_len_known; exact Hk).
  destruct (combine_beat_sounds_known w (x :: r) (longest (oneshots w) (x :: r)) Hk)
    as (a & E & _).
  erewrite bind_returned by exact E.
  eexists. split; reflexivity.
Qed.

Lemma render_measure_ok w spb measure_length beat_length ind_measure
    (items : list (Z * loc)) :
  Forall (fun ib => cell_ok w (snd ib) = true) items ->
  forall beat,
  exists beat',
    for_fold items (render_beat spb measure_length beat_length ind_measure) beat w
    = (Returned beat', w)
    /\ ms beat' = ms beat.
Proof.
  induction 1 as [|ib items Hib _ IH]; intros beat.
  - exists beat. split; reflexivity.
  - destruct (render_beat_ok w spb measure_length beat_length ind_measure beat ib Hib)
      as (b1 & E1 & M1).
    destruct (IH b1) as (b2 & E2 & M2).
    exists b2. simpl. erewrite bind_returned by exact E1.
    split; [exact E2|]. rewrite M2. exact M1.
Qed.

Lemma render_measures_ok w spb measure_length beat_length
    (items : list (Z * loc)) (measures : list Z) :
  Forall (fun ib => cell_ok w (snd ib) = true) items ->
  forall beat,
  exists beat',
    for_fold measures
      (fun beat ind_measure =>
         for_fold items (render_beat spb measure_length beat_length ind_measure) beat)
      beat w
    = (Returned beat', w)
    /\ ms beat' = ms beat.
Proof.
  intros Hok. induction measures as [|m measures IH]; intros beat.
  - exists beat. split; reflexivity.
  - destruct (render_measure_ok w spb measure_length beat_length m items Hok beat)
      as (b1 & E1 & M1).
    destruct (IH b1) as (b2 & E2 & M2).
    exists b2. simpl. erewrite bind_returned by exact E1.
    split; [exact E2|]. rewrite M2. exact M1.
Qed.

Lemma playable_enumerate w measure :
  playable w measure = true ->
  Forall (fun ib => cell_ok w (snd ib) = true) (enumerate measure).
Proof.
  unfold playable, enumerate. intros H.
  rewrite forallb_forall in H.
  apply List.Forall_forall. intros [i c] Hin. simpl.
  apply H. eapply in_combine_r. exact Hin.
Qed.

Lemma py_getitem_last {A} (l : list A) x w :
  last l = Some x -> py_getitem l (-1) w = (Returned x, w).
Proof.
  intros H. rewrite last_lookup in H. pose proof (lookup_lt_Some _ _ _ H) as Hlt.
  unfold py_getitem. cbv zeta.
  rewrite (bool_decide_eq_true_2 (-1 < 0)) by lia.
  rewrite bool_decide_eq_true_2 by lia.
  replace (Z.to_nat (-1 + Z.of_nat (length l))) with (pred (length l)) by lia.
  rewrite H. reflexivity.
Qed.

Lemma playable_last w measure c :
  playable w measure = true -> last measure = Some c -> cell_ok w c = true.
Proof.
  unfold playable. intros H Hl. rewrite forallb_forall in H. apply H.
  apply list_elem_of_In. apply last_Some_elem_of. exact Hl.
Qed.

Lemma canvas_ok w measure beat_length repeatable :
  playable w measure = true ->
  (repeatable = false -> measure <> []) ->
  exists beat,
    canvas measure beat_length repeatable w = (Returned beat, w)
    /\ ms beat
       = Z.max 0 beat_length
         + (if repeatable then 0
            else Z.max 0 (longest (oneshots w) (last_cell w measure))).
Proof.
  intros Hp Hne. unfold canvas. destruct repeatable.
  - eexists. split; [reflexivity|]. simpl. lia.
  - destruct (last measure) as [c|] eqn:Hl.
    + destruct (cell_ok_lookup _ _ (playable_last _ _ _ Hp Hl)) as (cell & Hc & Hk).
      erewrite bind_returned by (apply py_getitem_last; exact Hl).
      erewrite bind_returned by (apply read_cell_allocated; exact Hc).
      erewrite bind_returned by (apply _max_len_known; exact Hk).
      eexists. split; [reflexivity|].
      unfold last_cell. rewrite Hl, Hc. reflexivity.
    + exfalso. apply Hne; [reflexivity|]. apply last_None. exact Hl.
Qed.

Lemma render_ok w measure num_measures repeatable :
  playable w measure = true ->
  (repeatable = false -> measure <> []) ->
  exists audio,
    render measure num_measures repeatable w
    = (Returned tt,
       with_self (set_current_beat (Some
         {| beat_audio := audio;
            beat_beats_per_measure := Z.of_nat (length measure);
            beat_bpm := bpm (self w);
            beat_num_measures := num_measures;
            beat_base_note := base_note (self w);
            beat_measure := measure;
            beat_repeatable := repeatable |})) w)
    /\ ms audio
       = Z.max 0 (_spb (self w) * Z.of_nat (length measure) * num_measures)
         + (if repeatable then 0
            else Z.max 0 (longest (oneshots w) (last_cell w measure))).
Proof.
  intros Hp Hne. unfold render.
  erewrite bind_returned by reflexivity. cbv zeta.
  destruct (canvas_ok w measure
              (_spb (self w) * Z.of_nat (length measure) * num_measures)
              repeatable Hp Hne) as (b0 & E0 & M0).
  erewrite bind_returned by exact E0.
  destruct (render_measures_ok w (_spb (self w))
              (_spb (self w) * Z.of_nat (length measure))
              (_spb (self w) * Z.of_nat (length measure) * num_measures)
              (enumerate measure) (range num_measures)
              (playable_enumerate _ _ Hp) b0) as (b1 & E1 & M1).
  erewrite bind_returned by exact E1.
  erewrite bind_returned by reflexivity.
  exists b1. split; [reflexivity|]. rewrite M1. exact M0.
Qed.

Lemma make_a_beat_ok w0 measure0 num_measures repeatable no_add shortcuts measure w :
  prepare measure0 no_add shortcuts w0 = (Returned measure, w) ->
  playable w measure = true ->
  (repeatable = false -> measure <> []) ->
  exists audio,
    make_a_beat measure0 num_measures repeatable no_add shortcuts w0
    = (Returned tt,
       with_self (set_current_beat (Some
         {| beat_audio := audio;
            beat_beats_per_measure := Z.of_nat (length measure);
            beat_bpm := bpm (self w);
            beat_num_measures := num_measures;
            beat_base_note := base_note (self w);
            beat_measure := measure;
            beat_repeatable := repeatable |})) w)
    /\ ms audio
       = Z.max 0 (_spb (self w) * Z.of_nat (length measure) * num_measures)
         + (if repeatable then 0
            else Z.max 0 (longest (oneshots w) (last_cell w measure))).
Proof.
  intros Hprep Hp Hne. unfold make_a_beat.
  erewrite bind_returned by exact Hprep.
  apply render_ok; assumption.
Qed.

(** C7.  A render with [repeatable = True] that gets past the template
    additions, over cells naming clips of the library, returns normally,
    and the length of its audio in milliseconds is
    [_spb * beats_per_measure * num_measures] (for [_spb], [num_measures]
    not negative); [_spb] as the constructor computes it for [bpm > 0] is
    the truncated quotient [60000 ÷ ((base_note ÷ 4) * bpm)]. *)
Theorem repeatable_render_length
    (w0 : World) (measure0 : list loc) (num_measures : Z) (no_add : bool)
    (shortcuts : kwargs) (measure : list loc) (w : World) :
  prepare measure0 no_add shortcuts w0 = (Returned measure, w) ->
  playable w measure = true ->
  0 <= _spb (self w) ->
  0 <= num_measures ->
  (exists beat,
     make_a_beat measure0 num_measures true no_add shortcuts w0
     = (Returned tt, with_self (set_current_beat (Some beat)) w)
     /\ beat_beats_per_measure beat = Z.of_nat (length measure)
     /\ beat_num_measures beat = num_measures
     /\ beat_repeatable beat = true
     /\ ms (beat_audio beat)
        = _spb (self w) * beat_beats_per_measure beat * beat_num_measures beat)
  /\ (forall bpm' n sp b,
        __init__ bpm' n sp = Returned b -> 0 < bpm' ->
        _spb b = 60000 ÷ ((n ÷ 4) * bpm') /\ 0 <= _spb b).
Proof.
  intros Hprep Hp Hspb Hnm. split.
  - destruct (make_a_beat_ok w0 measure0 num_measures true no_add shortcuts measure w
                Hprep Hp) as (audio & E & M); [discriminate|].
    eexists. split; [exact E|]. simpl. repeat (split; [reflexivity|]).
    rewrite M. nia.
  - intros bpm' n sp b Hb Hpos. unfold __init__ in Hb.
    destruct (base_note_rejected n) eqn:Hr; [discriminate|].
    apply base_note_accepted_iff, power_of_two_pos in Hr.
    case_bool_decide as Hz; [discriminate|]. inversion Hb; subst b; clear Hb. simpl.
    assert (0 <= n / 4) by (apply Z.div_pos; lia).
    rewrite (Z.quot_div_nonneg n 4) by lia.
    rewrite Z.quot_div_nonneg by nia.
    split; [reflexivity|]. apply Z.div_pos; nia.
Qed.

(** The theorem at 500 ms per beat, four beats, two measures: 4000 ms. *)
Lemma repeatable_render_length_witness :
  let w := mkWorld (self studio) library
             [[]; []; []; []; ["kick"]; ["kick"]; ["kick"]; ["kick"]] in
  exists beat,
    make_a_beat [0; 1; 2; 3]%nat 2 true false [("every_beat", VNames ["kick"])]
                (studio4 [] [] [] [])
    = (Returned tt, with_self (set_current_beat (Some beat)) w)
    /\ _spb (self w) = 500
    /\ beat_beats_per_measure beat = 4
    /\ beat_num_measures beat = 2
    /\ ms (beat_audio beat) = 4000.
Proof.
  intros w.
  destruct (repeatable_render_length (studio4 [] [] [] []) [0; 1; 2; 3]%nat 2 false
              [("every_beat", VNames ["kick"])] [4; 5; 6; 7]%nat w)
    as [(beat & E & Hb & Hn & _ & Hm) _].
  - reflexivity.
  - reflexivity.
  - simpl. lia.
  - lia.
  - exists beat. split; [exact E|]. split; [reflexivity|].
    split; [exact Hb|]. split; [exact Hn|]. rewrite Hm, Hb, Hn. reflexivity.
Defined.

(** C4, as the code has it.  A render that gets past the template
    additions, over a non-empty template of cells naming clips of the
    library, on an engine whose [_spb] is not negative (so that no overlay
    position is), returns normally.  With [repeatable = False] its audio is the
    canvas of the total length followed by silence as long as the longest
    clip named in the last cell of the template, [measure[-1]], which is
    nothing when that cell is empty; with [repeatable = True] it is the
    canvas alone. *)
Theorem one_shot_tail_is_last_cell
    (w0 : World) (measure0 : list loc) (num_measures : Z)
    (repeatable no_add : bool) (shortcuts : kwargs)
    (measure : list loc) (w : World) :
  prepare measure0 no_add shortcuts w0 = (Returned measure, w) ->
  playable w measure = true ->
  measure <> [] ->
  0 <= _spb (self w) ->
  exists beat,
    make_a_beat measure0 num_measures repeatable no_add shortcuts w0
    = (Returned tt, with_self (set_current_beat (Some beat)) w)
    /\ beat_repeatable beat = repeatable
    /\ ms (beat_audio beat)
       = ms (silent (_spb (self w) * Z.of_nat (length measure) * num_measures))
         + (if repeatable then 0
            else ms (silent (longest (oneshots w) (last_cell w measure))))
    /\ (last_cell w measure = [] ->
        ms (beat_audio beat)
        = ms (silent (_spb (self w) * Z.of_nat (length measure) * num_measures))).
Proof.
  intros Hprep Hp Hne _.
  destruct (make_a_beat_ok w0 measure0 num_measures repeatable no_add shortcuts
              measure w Hprep Hp) as (audio & E & M); [intros _; exact Hne|].
  eexists. split; [exact E|]. simpl. split; [reflexivity|].
  split; [exact M|]. intros Hl. rewrite M, Hl. destruct repeatable; simpl; lia.
Qed.

(** The theorem on two beats with a kick on the last: 1000 + 300 ms. *)
Lemma one_shot_tail_is_last_cell_witness :
  let w := mkWorld (self studio) library
             [[]; []; ["hihat"]; ["hihat"; "kick"]] in
  exists beat,
    make_a_beat [0; 1]%nat 1 false false
                [("every_beat", VNames ["hihat"]); ("single", VSingle [("kick", [1])])]
                (mkWorld (self studio) library [[]; []])
    = (Returned tt, with_self (set_current_beat (Some beat)) w)
    /\ ms (beat_audio beat) = 1000 + 300.
Proof.
  intros w.
  destruct (one_shot_tail_is_last_cell (mkWorld (self studio) library [[]; []])
              [0; 1]%nat 1 false false
              [("every_beat", VNames ["hihat"]); ("single", VSingle [("kick", [1])])]
              [2; 3]%nat w)
    as (beat & E & _ & Hm & _).
  - reflexivity.
  - reflexivity.
  - discriminate.
  - simpl. lia.
  - exists beat. split; [exact E|]. rewrite Hm. reflexivity.
Defined.

(** C4, as the specification words it, fails: with a kick (300 ms) on the
    first of two beats and nothing on the second, the final non-empty cell
    holds the kick, yet the one-shot render is as long as the canvas:
    1000 ms, not 1300. *)
Lemma one_shot_tail_ignores_earlier_cells :
  let r := make_a_beat [0; 1]%nat 1 false false []
                       (mkWorld (self studio) library [["kick"]; []]) in
  fst r = Returned tt
  /\ longest library (spec_final_nonempty_cell [["kick"]; []]) = 300
  /\ (ms <$> (beat_audio <$> current_beat (self (snd r)))) = Some (500 * 2 * 1)
  /\ (ms <$> (beat_audio <$> current_beat (self (snd r)))) <> Some (500 * 2 * 1 + 300).
Proof.
  intros r. split; [reflexivity|]. split; [reflexivity|].
  split; [reflexivity|]. vm_compute. discriminate.
Qed.

(** ** Re-editing the current beat: the behaviour at the failing inputs *)

(** C8 at a failing input.  The current beat is repeatable; the caller asks
    for [repeatable = False]; the re-rendered beat is repeatable all the
    same, and has no tail.  Likewise [num_measures = 0] gives the stored
    number of measures. *)
Theorem edit_current_beat_ignores_repeatable_false :
  let w1 := snd (make_a_beat [0; 1; 2; 3]%nat 1 true false
                             [("every_beat", VNames ["crash"])]
                             (studio4 [] [] [] [])) in
  let r := edit_current_beat None None None (Some false) [] [] w1 in
  (beat_repeatable <$> current_beat (self w1)) = Some true
  /\ fst r = Returned tt
  /\ (beat_repeatable <$> current_beat (self (snd r))) = Some true
  /\ (ms <$> (beat_audio <$> current_beat (self (snd r)))) = Some 2000
  /\ (forall stored, or_bool (Some false) stored = stored)
  /\ (forall stored, or_int (Some 0) stored = stored).
Proof.
  intros w1 r. split; [reflexivity|]. split; [reflexivity|].
  split; [reflexivity|]. split; [reflexivity|]. split; intros stored; reflexivity.
Qed.

(** C1 at a failing input.  A beat with a snare on each of four beats is
    rendered and stored as "a"; the edit removes every snare and adds one
    on every second beat.  The code adds first and removes second, so no
    snare is left, where removing first leaves the snares just added; and
    it edits the cells of the stored template themselves, so the template
    of "a" has lost its snares too. *)
Theorem edit_current_beat_adds_then_removes_in_place :
  let remove := [("every_beat", VNames ["snare"])] in
  let add := [("every_2nd", VPairs [("snare", 0)])] in
  let w1 := snd ((make_a_beat [0; 1; 2; 3]%nat 1 true false
                              [("every_beat", VNames ["snare"])] ;;;
                  store_beat "a") (studio4 [] [] [] [])) in
  let r := edit_current_beat None None None None remove add w1 in
  let template := [4; 5; 6; 7]%nat in
  (beat_measure <$> current_beat (self w1)) = Some template
  /\ contents w1 template
     = [Some ["snare"]; Some ["snare"]; Some ["snare"]; Some ["snare"]]
  /\ fst r = Returned tt
  /\ (beat_measure <$> current_beat (self (snd r))) = Some template
  /\ contents (snd r) template = [Some []; Some []; Some []; Some []]
  /\ contents (snd ((call__edit_template template (Some "remove") remove ;;;
                     call__edit_template template None add) w1)) template
     = [Some ["snare"]; Some []; Some ["snare"]; Some []]
  /\ (beat_measure <$> stored_beats (self (snd r)) !!! "a") = Some template.
Proof.
  intros remove add w1 r template. repeat split; reflexivity.
Qed.

(** C9 at a failing input.  A beat with a hihat on each of four beats is
    rendered and stored as "a"; [edit_current_beat] then adds a crash on
    the first beat.  No [store_beat] follows, the entry "a" is the same
    dictionary with the same audio, but the first cell of its template now
    names the crash. *)
Theorem edit_current_beat_changes_stored_template :
  let w1 := snd ((make_a_beat [0; 1; 2; 3]%nat 1 true false
                              [("every_beat", VNames ["hihat"])] ;;;
                  store_beat "a") (studio4 [] [] [] [])) in
  let r := edit_current_beat None None None None []
                             [("single", VSingle [("crash", [0])])] w1 in
  fst r = Returned tt
  /\ stored_beats (self (snd r)) !! "a" = stored_beats (self w1) !! "a"
  /\ (exists a, stored_beats (self w1) !! "a" = Some (Some a)
                /\ sounds (beat_audio a)
                   = [(0, "hihat"); (500, "hihat"); (1000, "hihat"); (1500, "hihat")]
                /\ contents w1 (beat_measure a)
                   = [Some ["hihat"]; Some ["hihat"]; Some ["hihat"]; Some ["hihat"]]
                /\ contents (snd r) (beat_measure a)
                   = [Some ["hihat"; "crash"]; Some ["hihat"]; Some ["hihat"];
                      Some ["hihat"]]).
Proof.
  intros w1 r. split; [reflexivity|]. split; [reflexivity|].
  eexists. split; [reflexivity|]. repeat split; reflexivity.
Qed.

(** * Further properties of the code *)

(** ** Cells *)

Lemma list_remove_first n pre post :
  n ∉ pre -> list_remove n (pre ++ n :: post) = pre ++ post.
Proof.
  induction pre as [|x pre IH]; intros Hn; simpl.
  - rewrite bool_decide_eq_true_2 by reflexivity. reflexivity.
  - rewrite not_elem_of_cons in Hn. destruct Hn as [Hx Hn].
    rewrite bool_decide_eq_false_2 by congruence. rewrite IH by exact Hn. reflexivity.
Qed.

Lemma list_remove_absent n l : n ∉ l -> list_remove n l = l.
Proof.
  induction l as [|x l IH]; intros Hn; simpl; [reflexivity|].
  rewrite not_elem_of_cons in Hn. destruct Hn as [Hx Hn].
  rewrite bool_decide_eq_false_2 by congruence. rewrite IH by exact Hn. reflexivity.
Qed.

Lemma list_remove_sublist n l : sublist (list_remove n l) l.
Proof.
  induction l as [|x l IH]; simpl; [constructor|].
  case_bool_decide; [apply sublist_cons; reflexivity|apply sublist_skip; exact IH].
Qed.

Lemma list_remove_elem_of n l m :
  NoDup l -> m ∈ list_remove n l <-> m ∈ l /\ m <> n.
Proof.
  induction 1 as [|x l Hx Hnd IH]; simpl.
  - rewrite elem_of_nil. tauto.
  - case_bool_decide as E.
    + subst x. rewrite elem_of_cons. split.
      * intros Hm. split; [tauto|]. intros ->. contradiction.
      * intros [[->|Hm] Hne]; [contradiction|exact Hm].
    + rewrite !elem_of_cons, IH. split.
      * intros [->|[Hm Hne]]; [split; [tauto|congruence]|tauto].
      * intros [[->|Hm] Hne]; tauto.
Qed.

(** X1.  A cell that names no clip twice still names none twice after
    [cchange], whatever the name and the edit type. *)
Theorem cchange_keeps_cells_duplicate_free (cell : Mlist) (n etype : string) :
  NoDup cell -> NoDup (cchange cell n etype).
Proof.
  intros Hnd. unfold cchange, _cappend, _cremove.
  repeat case_bool_decide; try assumption.
  - apply NoDup_app. split; [exact Hnd|]. split.
    + intros x Hx Hx'. apply list_elem_of_singleton in Hx'. subst x. contradiction.
    + apply NoDup_singleton.
  - eapply sublist_NoDup; [exact Hnd|apply list_remove_sublist].
Qed.

Lemma cchange_keeps_cells_duplicate_free_witness :
  NoDup (cchange ["hihat"; "kick"] "snare" "append")
  /\ NoDup (cchange ["hihat"; "kick"] "kick" "remove").
Proof.
  assert (H : NoDup ["hihat"; "kick"]) by compute_done.
  split; apply cchange_keeps_cells_duplicate_free; exact H.
Defined.

(** X2.  After an append the cell names the clip, and names besides it
    what it named before.  After a remove a cell that named no clip twice
    does not name the clip any more, and names the others as before. *)
Theorem cchange_membership (cell : Mlist) (n m : string) :
  (m ∈ cchange cell n "append" <-> m = n \/ m ∈ cell)
  /\ (NoDup cell -> m ∈ cchange cell n "remove" <-> m ∈ cell /\ m <> n).
Proof.
  unfold cchange, _cappend, _cremove. simpl. split.
  - case_bool_decide as Hn.
    + split; [tauto|]. intros [->|H]; assumption.
    + rewrite elem_of_app, list_elem_of_singleton. tauto.
  - intros Hnd. case_bool_decide as Hn.
    + apply list_remove_elem_of. exact Hnd.
    + split; [|tauto]. intros Hm. split; [exact Hm|]. intros ->. contradiction.
Qed.

Lemma cchange_membership_witness :
  ("kick" ∈ cchange ["hihat"; "kick"] "kick" "remove"
     <-> "kick" ∈ ["hihat"; "kick"] /\ "kick" <> "kick")
  /\ ("hihat" ∈ cchange ["hihat"; "kick"] "kick" "remove"
     <-> "hihat" ∈ ["hihat"; "kick"] /\ "hihat" <> "kick").
Proof.
  assert (H : NoDup ["hihat"; "kick"]) by compute_done.
  split.
  - apply (cchange_membership ["hihat"; "kick"] "kick" "kick"). exact H.
  - apply (cchange_membership ["hihat"; "kick"] "kick" "hihat"). exact H.
Defined.

(** X3.  A remove takes out the first occurrence of the name and only
    that one, and keeps the order of the rest: a cell that names the clip
    twice still names it afterwards. *)
Theorem cchange_remove_takes_first_occurrence (pre post : Mlist) (n : string) :
  n ∉ pre -> cchange (pre ++ n :: post) n "remove" = pre ++ post.
Proof.
  intros Hn. unfold cchange, _cremove. simpl.
  rewrite bool_decide_eq_true_2
    by (apply elem_of_app; right; apply list_elem_of_here).
  apply list_remove_first. exact Hn.
Qed.

Lemma cchange_remove_takes_first_occurrence_witness :
  cchange (["hihat"] ++ "kick" :: ["snare"; "kick"]) "kick" "remove"
  = ["hihat"] ++ ["snare"; "kick"].
Proof.
  apply cchange_remove_takes_first_occurrence.
  compute_done.
Defined.

Lemma cchange_append_present cell n :
  n ∈ cell -> cchange cell n "append" = cell.
Proof.
  intros H. unfold cchange, _cappend. simpl.
  rewrite bool_decide_eq_true_2 by exact H. reflexivity.
Qed.

Lemma cchange_append_absent cell n :
  n ∉ cell -> cchange cell n "append" = cell ++ [n].
Proof.
  intros H. unfold cchange, _cappend. simpl.
  rewrite bool_decide_eq_false_2 by exact H. reflexivity.
Qed.

(** X4.  Appending a name twice is appending it once; removing a name
    right after appending it to a cell that did not name it gives the cell
    back; appending it back after removing it from a cell that named it
    once puts it last. *)
Theorem cchange_append_idempotent_and_undone_by_remove (cell : Mlist) (n : string) :
  cchange (cchange cell n "append") n "append" = cchange cell n "append"
  /\ (n ∉ cell -> cchange (cchange cell n "append") n "remove" = cell)
  /\ (forall pre post, cell = pre ++ n :: post -> n ∉ pre -> n ∉ post ->
        cchange (cchange cell n "remove") n "append" = pre ++ post ++ [n]).
Proof.
  split; [|split].
  - destruct (decide (n ∈ cell)) as [Hn|Hn].
    + rewrite !(cchange_append_present cell n Hn). reflexivity.
    + rewrite (cchange_append_absent cell) by exact Hn.
      apply cchange_append_present. apply elem_of_app. right. apply list_elem_of_here.
  - intros Hn. rewrite cchange_append_absent by exact Hn.
    rewrite cchange_remove_takes_first_occurrence by exact Hn. apply app_nil_r.
  - intros pre post -> Hpre Hpost.
    rewrite cchange_remove_takes_first_occurrence by exact Hpre.
    rewrite cchange_append_absent by (rewrite elem_of_app; tauto).
    rewrite <- app_assoc. reflexivity.
Qed.

Lemma cchange_append_idempotent_and_undone_by_remove_witness :
  cchange (cchange ["hihat"] "kick" "append") "kick" "remove" = ["hihat"].
Proof.
  apply (cchange_append_idempotent_and_undone_by_remove ["hihat"] "kick").
  compute_done.
Defined.

(** ** Tempo *)

Lemma power_of_two_below_4 n : power_of_two n -> n / 4 = 0 <-> n = 1 \/ n = 2.
Proof.
  intros P. pose proof (power_of_two_pos n P) as Hpos.
  split.
  - intros Hq. assert (n < 4).
    { destruct (Z.lt_ge_cases n 4) as [?|Hge]; [assumption|].
      assert (1 <= n / 4) by (apply Z.div_le_lower_bound; lia). lia. }
    destruct P as (k & Hk & E).
    destruct (Z.eq_dec k 0) as [->|?]; [left; rewrite E; reflexivity|].
    destruct (Z.eq_dec k 1) as [->|?]; [right; rewrite E; reflexivity|].
    exfalso. assert (2 ^ 2 <= 2 ^ k) by (apply Z.pow_le_mono_r; lia).
    change (2 ^ 2) with 4 in *. lia.
  - intros [->| ->]; reflexivity.
Qed.

(** X5.  The constructor ends in one of three ways.  It raises the
    base-note exception for a [base_note] that is no power of two (C3); it
    raises [ZeroDivisionError] exactly for [base_note] 1 or 2, whatever
    [bpm] is, and for [bpm = 0]; in every other case it returns an engine
    with the arguments stored, consistent tempo fields, no current beat and
    no stored beat. *)
Theorem constructor_outcomes (bpm' n : Z) (sp : option string) :
  (__init__ bpm' n sp = Raised ZeroDivisionError
     <-> n = 1 \/ n = 2 \/ (power_of_two n /\ bpm' = 0))
  /\ ((exists b, __init__ bpm' n sp = Returned b)
     <-> power_of_two n /\ 4 <= n /\ bpm' <> 0)
  /\ (forall b, __init__ bpm' n sp = Returned b ->
        tempo_ok b /\ bpm b = bpm' /\ base_note b = n /\ save_path b = sp
        /\ current_beat b = None /\ stored_beats b = ∅).
Proof.
  unfold __init__.
  destruct (base_note_rejected n) eqn:Hr.
  - assert (N : ~ power_of_two n).
    { intros P. apply base_note_accepted_iff in P. congruence. }
    split; [|split].
    + split; [discriminate|]. intros [->|[->|[P _]]]; [discriminate Hr..|contradiction].
    + split; [intros [b Hb]; discriminate|]. intros [P _]. contradiction.
    + intros b Hb. discriminate.
  - pose proof Hr as P. apply base_note_accepted_iff in P.
    pose proof (power_of_two_below_4 n P) as H4.
    pose proof (power_of_two_pos n P) as Hpos.
    assert (Hq : 0 <= n / 4) by (apply Z.div_pos; lia).
    case_bool_decide as Hz.
    + assert (Hc : n = 1 \/ n = 2 \/ bpm' = 0).
      { destruct (Z.eq_dec (n / 4) 0) as [E|E]; [apply H4 in E; tauto|].
        right; right. nia. }
      split; [|split].
      * split; [tauto|reflexivity].
      * split; [intros [b Hb]; discriminate|]. intros (_ & Hge & Hb).
        exfalso. destruct Hc as [->|[->|Hc]]; lia.
      * intros b Hb. discriminate.
    + assert (Hn4 : n / 4 <> 0) by (intros E; apply Hz; rewrite E; reflexivity).
      assert (Hb0 : bpm' <> 0) by (intros E; apply Hz; rewrite E; lia).
      split; [|split].
      * split; [discriminate|]. intros [E|[E|[_ E]]]; [| |contradiction];
          exfalso; apply Hn4; apply H4; tauto.
      * split; [|eauto]. intros _. split; [exact P|]. split; [|exact Hb0].
        destruct (Z.lt_ge_cases n 4) as [Hlt|?]; [|assumption].
        exfalso. apply Hn4. apply Z.div_small. lia.
      * intros b Hb. inversion Hb; subst b; clear Hb. unfold tempo_ok. simpl.
        repeat split; try reflexivity. exact Hz.
Qed.

Lemma constructor_outcomes_witness :
  tempo_ok (mkBeatBoxer 100 8 None 200 300 None ∅).
Proof.
  destruct (constructor_outcomes 100 8 None) as (_ & _ & H).
  apply (H (mkBeatBoxer 100 8 None 200 300 None ∅)). reflexivity.
Defined.

(** X6.  [change_bpm] with a value: when [(base_note // 4) * value] is not
    zero it returns, the tempo fields are consistent again, and nothing but
    [bpm], [_bpm] and [_spb] has changed; when it is zero it raises
    [ZeroDivisionError] after storing the new [bpm] and a zero [_bpm], with
    the old [_spb] left in place.  [change_bpm(None)] does nothing. *)
Theorem change_bpm_outcomes (w : World) (v : Z) :
  (base_note (self w) / 4 * v <> 0 ->
     exists w', change_bpm (Some v) w = (Returned tt, w')
       /\ tempo_ok (self w') /\ bpm (self w') = v
       /\ base_note (self w') = base_note (self w)
       /\ save_path (self w') = save_path (self w)
       /\ current_beat (self w') = current_beat (self w)
       /\ stored_beats (self w') = stored_beats (self w)
       /\ oneshots w' = oneshots w /\ heap w' = heap w)
  /\ (base_note (self w) / 4 * v = 0 ->
     exists w', change_bpm (Some v) w = (Raised ZeroDivisionError, w')
       /\ bpm (self w') = v /\ _bpm (self w') = 0
       /\ _spb (self w') = _spb (self w)
       /\ ~ tempo_ok (self w'))
  /\ change_bpm None w = (Returned tt, w).
Proof.
  rewrite change_bpm_Some. cbv zeta. split; [|split].
  - intros Hz. rewrite bool_decide_eq_false_2 by exact Hz.
    eexists. split; [reflexivity|]. unfold tempo_ok. simpl.
    repeat split; try reflexivity. exact Hz.
  - intros Hz. rewrite bool_decide_eq_true_2 by exact Hz.
    eexists. split; [reflexivity|]. unfold tempo_ok. simpl.
    repeat split; try reflexivity; try exact Hz.
    intros (_ & H & _). apply H. exact Hz.
  - reflexivity.
Qed.

Lemma change_bpm_outcomes_witness :
  (exists w', change_bpm (Some 90) studio = (Returned tt, w')
     /\ tempo_ok (self w') /\ bpm (self w') = 90)
  /\ (exists w', change_bpm (Some 0) studio = (Raised ZeroDivisionError, w')
     /\ bpm (self w') = 0 /\ _spb (self w') = 500).
Proof.
  destruct (change_bpm_outcomes studio 90) as (A & _ & _).
  destruct (change_bpm_outcomes studio 0) as (_ & B & _).
  split.
  - destruct A as (w' & E & T & Hb & _); [vm_compute; discriminate|]. exists w'. auto.
  - destruct B as (w' & E & Hb & _ & Hs & _); [reflexivity|]. exists w'. auto.
Defined.

(** X7.  [change_base_note] with a value checks the value first and then
    changes nothing and raises when it is rejected; for a power of two it
    stores it and recomputes [_bpm] and [_spb], returning with consistent
    tempo fields when [(value // 4) * bpm] is not zero and raising
    [ZeroDivisionError], with the new [base_note] and a zero [_bpm] stored
    and the old [_spb] kept, when it is zero -- which is the case for the
    values 1 and 2. *)
Theorem change_base_note_outcomes (w : World) (v : Z) :
  (~ power_of_two v ->
     change_base_note (Some v) w = (Raised (Exception_base_note v), w))
  /\ (power_of_two v -> v / 4 * bpm (self w) <> 0 ->
     exists w', change_base_note (Some v) w = (Returned tt, w')
       /\ tempo_ok (self w') /\ base_note (self w') = v
       /\ bpm (self w') = bpm (self w)
       /\ current_beat (self w') = current_beat (self w)
       /\ stored_beats (self w') = stored_beats (self w)
       /\ oneshots w' = oneshots w /\ heap w' = heap w)
  /\ (power_of_two v -> v / 4 * bpm (self w) = 0 ->
     exists w', change_base_note (Some v) w = (Raised ZeroDivisionError, w')
       /\ base_note (self w') = v /\ _bpm (self w') = 0
       /\ _spb (self w') = _spb (self w))
  /\ (v = 1 \/ v = 2 -> fst (change_base_note (Some v) w) = Raised ZeroDivisionError).
Proof.
  rewrite change_base_note_Some. cbv zeta.
  assert (Hacc : power_of_two v -> base_note_rejected v = false)
    by apply base_note_accepted_iff.
  split; [|split; [|split]].
  - intros N. assert (Hr : base_note_rejected v = true)
      by (apply base_note_rejected_iff; tauto).
    rewrite Hr. reflexivity.
  - intros P Hz. rewrite (Hacc P). rewrite bool_decide_eq_false_2 by exact Hz.
    eexists. split; [reflexivity|]. unfold tempo_ok. simpl.
    repeat split; try reflexivity. exact Hz.
  - intros P Hz. rewrite (Hacc P). rewrite bool_decide_eq_true_2 by exact Hz.
    eexists. split; [reflexivity|]. simpl. repeat split; try reflexivity. exact Hz.
  - intros [->| ->]; reflexivity.
Qed.

Lemma change_base_note_outcomes_witness :
  change_base_note (Some 12) studio = (Raised (Exception_base_note 12), studio)
  /\ (exists w', change_base_note (Some 8) studio = (Returned tt, w')
       /\ tempo_ok (self w') /\ _spb (self w') = 250)
  /\ fst (change_base_note (Some 2) studio) = Raised ZeroDivisionError.
Proof.
  destruct (change_base_note_outcomes studio 12) as (A & _).
  destruct (change_base_note_outcomes studio 8) as (_ & B & _).
  destruct (change_base_note_outcomes studio 2) as (_ & _ & _ & D).
  split; [|split].
  - apply A. intros P. apply base_note_accepted_iff in P. discriminate P.
  - destruct B as (w' & E & T & Hb & _).
    + exists 3. split; [lia|reflexivity].
    + vm_compute; discriminate.
    + exists w'. split; [exact E|]. split; [exact T|].
      destruct T as (T1 & _ & T3). rewrite T3, T1, Hb.
      replace (bpm (self w')) with 120; [reflexivity|].
      vm_compute in E. inversion E. reflexivity.
  - apply D. right. reflexivity.
Defined.

(** ** Templates and clips *)

Lemma with_heap_with_heap f g w :
  with_heap f (with_heap g w) = with_heap (fun h => f (g h)) w.
Proof. reflexivity. Qed.

Lemma empty_loop {A} (l : list A) :
  forall (acc : list loc) (w : World),
    for_fold l (fun acc _ => let* c := new_Mlist [] in ret (acc ++ [c])) acc w
    = (Returned (acc ++ seq (length (heap w)) (length l)),
       with_heap (fun h => h ++ replicate (length l) []) w).
Proof.
  induction l as [|x l IH]; intros acc w.
  - simpl. rewrite app_nil_r. unfold ret, with_heap. rewrite app_nil_r, world_eta.
    reflexivity.
  - simpl for_fold. erewrite bind_returned by reflexivity.
    rewrite IH. unfold with_heap. simpl. rewrite length_app. simpl.
    rewrite <- !app_assoc. simpl.
    replace (length (heap w) + 1)%nat with (S (length (heap w))) by lia.
    reflexivity.
Qed.

(** X8.  [empty(n)] returns normally for every [n]: it allocates [n] new
    cells, all empty, at the next [n] addresses of the store, returns them
    in order, and leaves the engine, the library and the existing cells as
    they were.  For [n <= 0] the template is empty and nothing is
    allocated. *)
Theorem empty_allocates_fresh_empty_cells (w : World) (n : Z) :
  empty n w
  = (Returned (seq (length (heap w)) (Z.to_nat n)),
     with_heap (fun h => h ++ replicate (Z.to_nat n) []) w)
  /\ (forall measure w', empty n w = (Returned measure, w') ->
        length measure = Z.to_nat n
        /\ NoDup measure
        /\ contents w' measure = replicate (Z.to_nat n) (Some [])
        /\ (forall c, (c < length (heap w))%nat -> heap w' !! c = heap w !! c
                                                   /\ c ∉ measure))
  /\ (n <= 0 -> empty n w = (Returned [], w)).
Proof.
  assert (E : empty n w
              = (Returned (seq (length (heap w)) (Z.to_nat n)),
                 with_heap (fun h => h ++ replicate (Z.to_nat n) []) w)).
  { unfold empty, range. rewrite empty_loop. rewrite length_map, length_seq.
    reflexivity. }
  split; [exact E|]. split.
  - intros measure w' H. rewrite E in H. inversion H; subst; clear H.
    split; [apply length_seq|]. split; [apply NoDup_seq|]. split.
    + unfold contents. simpl. generalize (Z.to_nat n) as k. intros k.
      apply list_eq. intros i. rewrite list_lookup_fmap.
      destruct (decide (i < k)%nat) as [Hi|Hi].
      * rewrite lookup_seq_lt by exact Hi. simpl.
        rewrite lookup_app_r by lia.
        rewrite !lookup_replicate_2 by lia. reflexivity.
      * rewrite lookup_seq_ge by lia. simpl.
        symmetry. apply lookup_replicate_None. lia.
    + intros c Hc. simpl. split; [apply lookup_app_l; exact Hc|].
      rewrite elem_of_seq. lia.
  - intros Hn. rewrite E. replace (Z.to_nat n) with 0%nat by lia. simpl.
    unfold with_heap. rewrite app_nil_r, world_eta. reflexivity.
Qed.

Lemma empty_allocates_fresh_empty_cells_witness :
  empty (-3) (studio4 ["kick"] [] [] []) = (Returned [], studio4 ["kick"] [] [] [])
  /\ contents (snd (empty 2 (studio4 ["kick"] [] [] []))) [4; 5]%nat
     = [Some []; Some []].
Proof.
  destruct (empty_allocates_fresh_empty_cells (studio4 ["kick"] [] [] []) (-3))
    as (_ & _ & A).
  destruct (empty_allocates_fresh_empty_cells (studio4 ["kick"] [] [] []) 2)
    as (E & B & _).
  split; [apply A; lia|].
  destruct (B _ _ E) as (_ & _ & C & _). rewrite E. exact C.
Defined.

Lemma fold_max_bounds (lib : gmap string AudioSegment) (r : list string) :
  forall acc,
    let m := fold_left (fun acc y => Z.max acc (from_option ms 0 (lib !! y))) r acc in
    acc <= m
    /\ (forall y, y ∈ r -> from_option ms 0 (lib !! y) <= m)
    /\ (m = acc \/ exists y, y ∈ r /\ m = from_option ms 0 (lib !! y)).
Proof.
  induction r as [|x r IH]; intros acc; simpl.
  - split; [lia|]. split; [|left; reflexivity]. intros y Hy. inversion Hy.
  - destruct (IH (Z.max acc (from_option ms 0 (lib !! x)))) as (H1 & H2 & H3).
    split; [lia|]. split.
    + intros y Hy. apply elem_of_cons in Hy as [->|Hy]; [lia|apply H2; exact Hy].
    + destruct H3 as [H3|(y & Hy & H3)].
      * destruct (Z.max_spec acc (from_option ms 0 (lib !! x))) as [[_ E]|[_ E]].
        -- right. exists x. split; [apply list_elem_of_here|]. rewrite H3. exact E.
        -- left. rewrite H3. exact E.
      * right. exists y. split; [apply list_elem_of_further; exact Hy|exact H3].
Qed.

(** X9.  When every name of a cell is in the library, [_max_len] returns
    without changing anything; the value is 0 for the empty cell and
    otherwise the length of one of the named clips, and no named clip is
    longer. *)
Theorem _max_len_is_the_longest_clip (w : World) (names : Mlist) :
  forallb (known w) names = true ->
  exists m,
    _max_len names w = (Returned m, w)
    /\ (names = [] -> m = 0)
    /\ (forall x a, x ∈ names -> oneshots w !! x = Some a -> ms a <= m)
    /\ (names <> [] ->
        exists x a, x ∈ names /\ oneshots w !! x = Some a /\ ms a = m).
Proof.
  intros Hk. exists (longest (oneshots w) names).
  split; [apply _max_len_known; exact Hk|].
  destruct names as [|x r]; simpl.
  - split; [reflexivity|]. split; [|congruence]. intros y a Hy. inversion Hy.
  - simpl in Hk. apply andb_true_iff in Hk as [Hx Hr].
    destruct (fold_max_bounds (oneshots w) r (from_option ms 0 (oneshots w !! x)))
      as (H1 & H2 & H3).
    split; [discriminate|]. split.
    + intros y a Hy Ha. apply elem_of_cons in Hy as [->|Hy].
      * replace (ms a) with (from_option ms 0 (oneshots w !! x))
          by (rewrite Ha; reflexivity).
        exact H1.
      * replace (ms a) with (from_option ms 0 (oneshots w !! y))
          by (rewrite Ha; reflexivity).
        apply H2. exact Hy.
    + intros _. destruct H3 as [H3|(y & Hy & H3)].
      * destruct (known_lookup _ _ Hx) as [a Ha].
        exists x, a. split; [apply list_elem_of_here|]. split; [exact Ha|].
        rewrite H3, Ha. reflexivity.
      * rewrite forallb_forall in Hr.
        destruct (known_lookup w y) as [a Ha].
        { apply Hr. apply list_elem_of_In. exact Hy. }
        exists y, a. split; [apply list_elem_of_further; exact Hy|].
        split; [exact Ha|]. rewrite H3, Ha. reflexivity.
Qed.

Lemma _max_len_is_the_longest_clip_witness :
  exists m, _max_len ["hihat"; "crash"; "kick"] studio = (Returned m, studio)
            /\ 1500 <= m.
Proof.
  destruct (_max_len_is_the_longest_clip studio ["hihat"; "crash"; "kick"])
    as (m & E & _ & H & _); [reflexivity|].
  exists m. split; [exact E|].
  apply (H "crash" (clip "crash" 1500)); [compute_done|reflexivity].
Defined.

Lemma oneshot_unknown x w :
  oneshots w !! x = None -> oneshot x w = (Raised (KeyError x), w).
Proof. intros H. unfold oneshot. rewrite H. reflexivity. Qed.

(** X10.  [_max_len] on a cell that names a clip missing from the library
    raises [KeyError] for the first such name, and changes nothing. *)
Theorem _max_len_raises_for_first_unknown_clip
    (w : World) (pre post : Mlist) (x : string) :
  forallb (known w) pre = true ->
  oneshots w !! x = None ->
  _max_len (pre ++ x :: post) w = (Raised (KeyError x), w).
Proof.
  intros Hpre Hx. destruct pre as [|p pre]; simpl.
  - erewrite bind_raised; [reflexivity|]. apply oneshot_unknown. exact Hx.
  - simpl in Hpre. apply andb_true_iff in Hpre as [Hp Hpre].
    destruct (known_lookup _ _ Hp) as [a Ha].
    erewrite bind_returned by (apply oneshot_known; exact Ha).
    generalize (ms a) as acc.
    induction pre as [|q pre IH]; intros acc; simpl.
    + erewrite bind_raised; [reflexivity|].
      erewrite bind_raised; [reflexivity|]. apply oneshot_unknown. exact Hx.
    + simpl in Hpre. apply andb_true_iff in Hpre as [Hq Hpre].
      destruct (known_lookup _ _ Hq) as [b Hb].
      erewrite bind_returned
        by (erewrite bind_returned by (apply oneshot_known; exact Hb); reflexivity).
      apply IH. exact Hpre.
Qed.

Lemma _max_len_raises_for_first_unknown_clip_witness :
  _max_len (["hihat"] ++ "cowbell" :: ["gong"]) studio
  = (Raised (KeyError "cowbell"), studio).
Proof.
  apply _max_len_raises_for_first_unknown_clip; reflexivity.
Defined.

(** ** The template editor: what it can and cannot change *)

Lemma edits_only_refl measure w : edits_only measure w w.
Proof. unfold edits_only. auto. Qed.

Lemma edits_only_trans measure w1 w2 w3 :
  edits_only measure w1 w2 -> edits_only measure w2 w3 -> edits_only measure w1 w3.
Proof.
  intros (A1 & A2 & A3 & A4) (B1 & B2 & B3 & B4). unfold edits_only.
  split; [congruence|]. split; [congruence|]. split; [congruence|].
  intros c Hc. rewrite B4, A4 by exact Hc. reflexivity.
Qed.

Lemma confined_ret {A} measure (a : A) : confined measure (ret a).
Proof.
  intros w r w' H. inversion H; subst. split; [apply edits_only_refl|auto].
Qed.

Lemma confined_raise {A} measure e : confined measure (@raise A e).
Proof.
  intros w r w' H. inversion H; subst. split; [apply edits_only_refl|auto].
Qed.

Lemma confined_bind {A B} measure (m : Py A) (k : A -> Py B) :
  confined measure m -> (forall a, confined measure (k a)) ->
  confined measure (bind m k).
Proof.
  intros Hm Hk w r w' H. unfold bind in H.
  destruct (m w) as [[a|e] w1] eqn:E.
  - destruct (Hm _ _ _ E) as [F1 N1]. destruct (Hk a _ _ _ H) as [F2 N2].
    split; [eapply edits_only_trans; eauto|auto].
  - inversion H; subst. exact (Hm _ _ _ E).
Qed.

Lemma confined_for_each {A} measure (l : list A) (body : A -> Py unit) :
  (forall x, confined measure (body x)) -> confined measure (for_each l body).
Proof.
  intros Hb. induction l as [|x l IH]; simpl.
  - apply confined_ret.
  - apply confined_bind; [apply Hb|intros _; exact IH].
Qed.

Lemma py_getitem_inv {A} (l : list A) i w r w' :
  py_getitem l i w = (r, w') ->
  w' = w /\ (r = Raised IndexError \/ exists x, r = Returned x /\ x ∈ l).
Proof.
  unfold py_getitem. cbv zeta. intros H.
  destruct (bool_decide (0 <= (if bool_decide (i < 0) then i + Z.of_nat (length l) else i)
                         < Z.of_nat (length l))).
  - destruct (l !! Z.to_nat (if bool_decide (i < 0) then i + Z.of_nat (length l) else i))
      as [x|] eqn:E; inversion H; subst; split; auto.
    right. exists x. split; [reflexivity|]. eapply list_elem_of_lookup_2. exact E.
  - inversion H; subst. auto.
Qed.

Lemma confined_cchange_at measure c n etype :
  c ∈ measure -> confined measure (cchange_at c n etype).
Proof.
  intros Hc w r w' H. unfold cchange_at, bind, read_cell in H.
  destruct (heap w !! c) as [content|] eqn:E.
  - inversion H; subst; clear H. split.
    + unfold edits_only. simpl. split; [reflexivity|]. split; [reflexivity|].
      split; [apply length_insert|].
      intros c' Hc'. apply list_lookup_insert_ne. intros ->. contradiction.
    + unfold cells_nodup. simpl. intros Hn.
      apply Forall_insert; [exact Hn|].
      apply cchange_keeps_cells_duplicate_free.
      rewrite Forall_lookup in Hn. eapply Hn. exact E.
  - inversion H; subst. split; [apply edits_only_refl|auto].
Qed.

Lemma confined_cchange_index measure etype n i :
  confined measure (cchange_index measure etype n i).
Proof.
  intros w r w' H. unfold cchange_index, bind in H.
  destruct (py_getitem measure i w) as [[c|e] w1] eqn:E;
    destruct (py_getitem_inv _ _ _ _ _ E) as [-> Hr].
  - destruct Hr as [?|(x & Hx & Hin)]; [discriminate|]. inversion Hx; subst x.
    eapply confined_cchange_at; eauto.
  - inversion H; subst. split; [apply edits_only_refl|auto].
Qed.

Lemma confined_every_nth_step measure etype nth i p :
  confined measure (every_nth_step measure etype nth i p).
Proof.
  unfold every_nth_step. case_bool_decide; [|apply confined_ret].
  apply confined_bind.
  - unfold py_mod. case_bool_decide; [apply confined_raise|apply confined_ret].
  - intros r. case_bool_decide; [apply confined_cchange_index|apply confined_ret].
Qed.

Lemma confined_edit_shortcut measure etype k v :
  confined measure (edit_shortcut measure etype k v).
Proof.
  unfold edit_shortcut. case_bool_decide.
  - destruct v; try apply confined_raise.
    apply confined_for_each. intros i. apply confined_for_each. intros n.
    apply confined_cchange_index.
  - destruct (findall_every_nth k).
    + destruct v; try apply confined_raise.
      apply confined_for_each. intros i. apply confined_for_each. intros p.
      apply confined_every_nth_step.
    + case_bool_decide; [|apply confined_ret].
      destruct v; try apply confined_raise.
      apply confined_for_each. intros item. apply confined_for_each. intros i.
      apply confined_cchange_index.
Qed.

Lemma confined__edit_template measure etype shortcuts :
  confined measure (_edit_template measure etype shortcuts).
Proof.
  unfold _edit_template. case_bool_decide; [|apply confined_raise].
  apply confined_bind; [|intros _; apply confined_ret].
  apply confined_for_each. intros kv. apply confined_edit_shortcut.
Qed.

Lemma confined_call__edit_template measure etype kw :
  confined measure (call__edit_template measure etype kw).
Proof.
  unfold call__edit_template. case_bool_decide; [apply confined_raise|].
  destruct etype as [e|]; destruct (kw_get "etype" kw) as [[]|];
    try apply confined_raise; apply confined__edit_template.
Qed.

Lemma _edit_template_result measure etype shortcuts w :
  fst (_edit_template measure etype shortcuts w) = Returned measure
  \/ exists e, fst (_edit_template measure etype shortcuts w) = Raised e.
Proof.
  unfold _edit_template. case_bool_decide; [|right; eexists; reflexivity].
  unfold bind.
  destruct (for_each shortcuts _ w) as [[[]|e] w1]; [left|right; eexists]; reflexivity.
Qed.

(** X11.  Whatever the batch of shortcuts and however the call ends,
    [_edit_template] changes nothing but the contents of cells of the
    template it is given: the engine, the library, the number of cells in
    the store and every other cell are as before; and when it returns, it
    returns the template it was given. *)
Theorem _edit_template_changes_template_cells_only
    (measure : list loc) (etype : string) (shortcuts : kwargs) (w : World) :
  let r := _edit_template measure etype shortcuts w in
  self (snd r) = self w
  /\ oneshots (snd r) = oneshots w
  /\ length (heap (snd r)) = length (heap w)
  /\ (forall c, c ∉ measure -> heap (snd r) !! c = heap w !! c)
  /\ (fst r = Returned measure \/ exists e, fst r = Raised e).
Proof.
  intros r. subst r.
  destruct (_edit_template measure etype shortcuts w) as [o w'] eqn:E.
  destruct (confined__edit_template measure etype shortcuts _ _ _ E)
    as [(H1 & H2 & H3 & H4) _].
  pose proof (_edit_template_result measure etype shortcuts w) as Hr.
  rewrite E in Hr. simpl in *. auto.
Qed.

(** X12.  If no cell of the store names a clip twice before
    [_edit_template], none does after it, whatever the batch and however
    the call ends. *)
Theorem _edit_template_keeps_cells_duplicate_free
    (measure : list loc) (etype : string) (shortcuts : kwargs) (w : World) :
  cells_nodup w -> cells_nodup (snd (_edit_template measure etype shortcuts w)).
Proof.
  intros Hn.
  destruct (_edit_template measure etype shortcuts w) as [o w'] eqn:E.
  destruct (confined__edit_template measure etype shortcuts _ _ _ E) as [_ H].
  apply H. exact Hn.
Qed.

Lemma _edit_template_keeps_cells_duplicate_free_witness :
  cells_nodup
    (snd (_edit_template [0; 1; 2; 3]%nat "append"
            [("every_beat", VNames ["kick"; "kick"]);
             ("single", VSingle [("kick", [0; 0; 9])])]
            (studio4 ["kick"] [] ["hihat"] []))).
Proof.
  apply _edit_template_keeps_cells_duplicate_free.
  unfold cells_nodup. simpl. compute_done.
Defined.

Lemma for_each_app {A} (l1 l2 : list A) (body : A -> Py unit) w :
  for_each (l1 ++ l2) body w = (for_each l1 body ;;; for_each l2 body) w.
Proof.
  revert w. induction l1 as [|x l1 IH]; intros w; simpl.
  - reflexivity.
  - unfold bind. destruct (body x w) as [[[]|e] w1]; [|reflexivity].
    rewrite IH. reflexivity.
Qed.

(** X13.  A batch is applied shortcut by shortcut, in order and without
    looking ahead: applying [a ++ b] is applying [a] and then, if that
    returned, applying [b] to what [a] left.  So when a shortcut of [b]
    raises, what [a] changed stays changed. *)
Theorem _edit_template_batches_compose
    (measure : list loc) (etype : string) (a b : kwargs) (w : World) :
  _edit_template measure etype (a ++ b) w
  = (_edit_template measure etype a ;;; _edit_template measure etype b) w.
Proof.
  unfold _edit_template. case_bool_decide; [|reflexivity].
  unfold bind. rewrite for_each_app. unfold bind.
  destruct (for_each a _ w) as [[[]|e] w1]; reflexivity.
Qed.

(** ** The every-beat shortcut *)

Lemma index_loop measure (inner : Z -> Py unit) (f : nat -> Mlist -> Mlist) :
  NoDup measure ->
  (forall i c content w,
      measure !! i = Some c -> heap w !! c = Some content ->
      inner (Z.of_nat i) w
      = (Returned tt, with_heap (fun h => <[c := f i content]> h) w)) ->
  forall (idxs : list nat) w,
    NoDup idxs -> Forall (fun i => (i < length measure)%nat) idxs ->
    allocated w measure ->
    exists w',
      for_each (map Z.of_nat idxs) inner w = (Returned tt, w')
      /\ self w' = self w /\ oneshots w' = oneshots w
      /\ length (heap w') = length (heap w)
      /\ (forall i c, measure !! i = Some c ->
            heap w' !! c
            = (if bool_decide (i ∈ idxs) then f i else id) <$> heap w !! c)
      /\ (forall c, c ∉ measure -> heap w' !! c = heap w !! c).
Proof.
  intros Hnd Hinner. induction idxs as [|i0 idxs IH]; intros w Hi Hlt Hal.
  - exists w. simpl. split; [reflexivity|]. split; [reflexivity|].
    split; [reflexivity|]. split; [reflexivity|]. split; [|reflexivity].
    intros i c _. destruct (heap w !! c); reflexivity.
  - apply NoDup_cons in Hi as [Hi0 Hi]. apply Forall_cons in Hlt as [Hlt0 Hlt].
    destruct (lookup_lt_is_Some_2 _ _ Hlt0) as [c0 Hc0].
    assert (Hc0lt : (c0 < length (heap w))%nat).
    { unfold allocated in Hal. rewrite Forall_forall in Hal. apply Hal.
      eapply list_elem_of_lookup_2. exact Hc0. }
    destruct (lookup_lt_is_Some_2 _ _ Hc0lt) as [content0 Hcontent0].
    set (w1 := with_heap (fun h => <[c0 := f i0 content0]> h) w).
    destruct (IH w1 Hi Hlt) as (w' & E & Hs & Ho & Hl & Hin & Hout).
    { unfold allocated, w1. simpl. rewrite length_insert. exact Hal. }
    exists w'. simpl map. simpl for_each.
    erewrite bind_returned by (apply Hinner; eassumption).
    split; [exact E|]. split; [rewrite Hs; reflexivity|].
    split; [rewrite Ho; reflexivity|].
    split; [rewrite Hl; unfold w1; simpl; apply length_insert|].
    split.
    + intros i c Hc. rewrite (Hin i c Hc). unfold w1. simpl.
      destruct (decide (i = i0)) as [->|Hne].
      * assert (c = c0) by congruence. subst c.
        rewrite list_lookup_insert_eq by exact Hc0lt.
        rewrite bool_decide_eq_false_2 by exact Hi0.
        rewrite bool_decide_eq_true_2 by apply list_elem_of_here.
        rewrite Hcontent0. reflexivity.
      * assert (c <> c0).
        { intros E'. subst c. apply Hne. exact (NoDup_lookup _ _ _ _ Hnd Hc Hc0). }
        rewrite list_lookup_insert_ne by congruence.
        destruct (decide (i ∈ idxs)) as [Hm|Hm].
        -- rewrite (bool_decide_eq_true_2 (i ∈ idxs)) by exact Hm.
           rewrite (bool_decide_eq_true_2 (i ∈ i0 :: idxs))
             by (apply list_elem_of_further; exact Hm).
           reflexivity.
        -- rewrite (bool_decide_eq_false_2 (i ∈ idxs)) by exact Hm.
           rewrite (bool_decide_eq_false_2 (i ∈ i0 :: idxs))
             by (rewrite elem_of_cons; tauto).
           reflexivity.
    + intros c Hc. rewrite (Hout c Hc). unfold w1. simpl.
      apply list_lookup_insert_ne. intros ->. apply Hc.
      eapply list_elem_of_lookup_2. exact Hc0.
Qed.

Lemma every_beat_inner measure etype (i : nat) c :
  measure !! i = Some c ->
  forall names content w, heap w !! c = Some content ->
  for_each names (fun oneshot => cchange_index measure etype oneshot (Z.of_nat i)) w
  = (Returned tt,
     with_heap (fun h => <[c := cell_after_every_beat etype names content]> h) w).
Proof.
  intros Hi. induction names as [|n names IH]; intros content w Hc.
  - simpl. rewrite with_heap_insert_id by exact Hc. reflexivity.
  - simpl for_each.
    erewrite bind_returned by (eapply cchange_index_allocated; eauto).
    pose proof (lookup_lt_Some _ _ _ Hc) as Hlt.
    erewrite IH by (simpl; apply list_lookup_insert_eq; exact Hlt).
    unfold with_heap. simpl. rewrite list_insert_insert_eq. reflexivity.
Qed.

Lemma edit_every_beat_spec measure etype names w :
  NoDup measure -> allocated w measure ->
  exists w',
    edit_every_beat measure etype names w = (Returned tt, w')
    /\ self w' = self w /\ oneshots w' = oneshots w
    /\ length (heap w') = length (heap w)
    /\ (forall i c, measure !! i = Some c ->
          heap w' !! c = cell_after_every_beat etype names <$> heap w !! c)
    /\ (forall c, c ∉ measure -> heap w' !! c = heap w !! c).
Proof.
  intros Hnd Hal.
  destruct (index_loop measure
              (fun ind_beat => for_each names (fun oneshot =>
                 cchange_index measure etype oneshot ind_beat))
              (fun _ => cell_after_every_beat etype names) Hnd)
    with (idxs := seq 0 (length measure)) (w := w)
    as (w' & E & Hs & Ho & Hl & Hin & Hout).
  - intros i c content w0 Hi Hc. eapply every_beat_inner; eauto.
  - apply NoDup_seq.
  - apply Forall_forall. intros i Hi. apply elem_of_seq in Hi. lia.
  - exact Hal.
  - exists w'. unfold edit_every_beat, range. rewrite Nat2Z.id.
    split; [exact E|]. split; [exact Hs|]. split; [exact Ho|].
    split; [exact Hl|]. split; [|exact Hout].
    intros i c Hc. rewrite (Hin i c Hc).
    rewrite bool_decide_eq_true_2; [reflexivity|].
    apply elem_of_seq. pose proof (lookup_lt_Some _ _ _ Hc). lia.
Qed.

(** X14.  An [every_beat] shortcut applied to a template of distinct
    cells returns normally; every cell of the template has received the
    change for each listed name, in the order of the list, and nothing
    else has changed. *)
Theorem every_beat_touches_every_cell
    (w : World) (measure : list loc) (etype : string) (names : list string) :
  etype ∈ ["append"; "remove"] ->
  NoDup measure ->
  allocated w measure ->
  exists w',
    _edit_template measure etype [("every_beat", VNames names)] w
    = (Returned measure, w')
    /\ self w' = self w /\ oneshots w' = oneshots w
    /\ length (heap w') = length (heap w)
    /\ (forall i c, measure !! i = Some c ->
          heap w' !! c
          = fold_left (fun cell n => cchange cell n etype) names <$> heap w !! c)
    /\ (forall c, c ∉ measure -> heap w' !! c = heap w !! c).
Proof.
  intros He Hnd Hal.
  destruct (edit_every_beat_spec measure etype names w Hnd Hal)
    as (w' & E & Hs & Ho & Hl & Hin & Hout).
  exists w'. rewrite _edit_template_one by exact He.
  erewrite bind_returned by exact E.
  split; [reflexivity|]. split; [exact Hs|]. split; [exact Ho|].
  split; [exact Hl|]. split; [exact Hin|exact Hout].
Qed.

Lemma every_beat_touches_every_cell_witness :
  exists w',
    _edit_template [2; 0]%nat "append" [("every_beat", VNames ["hihat"; "kick"])]
                   (studio4 ["kick"] ["clap"] [] [])
    = (Returned [2; 0]%nat, w')
    /\ heap w' !! 0%nat = Some ["kick"; "hihat"]
    /\ heap w' !! 1%nat = Some ["clap"]
    /\ heap w' !! 2%nat = Some ["hihat"; "kick"].
Proof.
  destruct (every_beat_touches_every_cell (studio4 ["kick"] ["clap"] [] [])
              [2; 0]%nat "append" ["hihat"; "kick"])
    as (w' & E & _ & _ & _ & Hin & Hout).
  - apply list_elem_of_here.
  - compute_done.
  - unfold allocated. simpl. repeat constructor.
  - exists w'. split; [exact E|]. split; [|split].
    + rewrite (Hin 1%nat 0%nat) by reflexivity. reflexivity.
    + rewrite Hout by compute_done. reflexivity.
    + rewrite (Hin 0%nat 2%nat) by reflexivity. reflexivity.
Defined.

Lemma every_beat_append_keeps x names cell :
  x ∈ cell -> x ∈ cell_after_every_beat "append" names cell.
Proof.
  revert cell. induction names as [|n names IH]; intros cell Hx; [exact Hx|].
  simpl. apply IH. apply cchange_membership. right. exact Hx.
Qed.

Lemma every_beat_append_has_all names cell n :
  n ∈ names -> n ∈ cell_after_every_beat "append" names cell.
Proof.
  revert cell. induction names as [|m names IH]; intros cell Hn; [inversion Hn|].
  simpl. apply elem_of_cons in Hn as [->|Hn].
  - apply every_beat_append_keeps. apply cchange_membership. left. reflexivity.
  - apply IH. exact Hn.
Qed.

Lemma every_beat_append_saturated names cell :
  (forall n, n ∈ names -> n ∈ cell) ->
  cell_after_every_beat "append" names cell = cell.
Proof.
  induction names as [|m names IH]; intros H; [reflexivity|].
  simpl. rewrite cchange_append_present by (apply H; apply list_elem_of_here).
  apply IH. intros n Hn. apply H. apply list_elem_of_further. exact Hn.
Qed.

(** X15.  Adding the same names on every beat twice is adding them once:
    on a template of distinct cells the second [every_beat] append returns
    and changes nothing. *)
Theorem every_beat_append_twice_is_once
    (w : World) (measure : list loc) (names : list string) :
  NoDup measure ->
  allocated w measure ->
  (_edit_template measure "append" [("every_beat", VNames names)] ;;;
   _edit_template measure "append" [("every_beat", VNames names)]) w
  = _edit_template measure "append" [("every_beat", VNames names)] w.
Proof.
  intros Hnd Hal.
  assert (He : "append" ∈ ["append"; "remove"]) by apply list_elem_of_here.
  destruct (every_beat_touches_every_cell w measure "append" names He Hnd Hal)
    as (w1 & E1 & Hs1 & Ho1 & Hl1 & Hin1 & Hout1).
  assert (Hal1 : allocated w1 measure).
  { unfold allocated in *. rewrite Hl1. exact Hal. }
  destruct (every_beat_touches_every_cell w1 measure "append" names He Hnd Hal1)
    as (w2 & E2 & Hs2 & Ho2 & Hl2 & Hin2 & Hout2).
  erewrite bind_returned by exact E1. rewrite E1, E2. f_equal.
  destruct w1 as [s1 o1 h1], w2 as [s2 o2 h2]. simpl in *. subst s2 o2. f_equal.
  apply list_eq. intros c.
  destruct (decide (c ∈ measure)) as [Hc|Hc].
  - apply list_elem_of_lookup_1 in Hc as [i Hi].
    rewrite (Hin2 i c Hi), (Hin1 i c Hi).
    destruct (heap w !! c) as [content|]; [|reflexivity]. simpl. f_equal.
    apply every_beat_append_saturated. intros n Hn.
    apply every_beat_append_has_all. exact Hn.
  - apply Hout2. exact Hc.
Qed.

Lemma every_beat_append_twice_is_once_witness :
  (_edit_template [0; 1; 2; 3]%nat "append" [("every_beat", VNames ["hihat"; "kick"])] ;;;
   _edit_template [0; 1; 2; 3]%nat "append" [("every_beat", VNames ["hihat"; "kick"])])
    (studio4 ["kick"] [] ["snare"] [])
  = _edit_template [0; 1; 2; 3]%nat "append" [("every_beat", VNames ["hihat"; "kick"])]
      (studio4 ["kick"] [] ["snare"] []).
Proof.
  apply every_beat_append_twice_is_once.
  - compute_done.
  - unfold allocated. simpl. repeat constructor.
Defined.

(** ** Edge cases of the editor *)

Lemma for_each_guard {A} (l : list A) (body : A -> Py unit) (b : A -> bool) e :
  (forall x w, body x w = (if b x then Raised e else Returned tt, w)) ->
  forall w, for_each l body w = (if existsb b l then Raised e else Returned tt, w).
Proof.
  intros Hb. induction l as [|x l IH]; intros w; simpl; [reflexivity|].
  unfold bind. rewrite Hb. destruct (b x); simpl; [reflexivity|apply IH].
Qed.

Lemma every_nth_step_zero measure etype i p w :
  every_nth_step measure etype 0 i p w
  = (if bool_decide (i >= snd p) then Raised ZeroDivisionError else Returned tt, w).
Proof.
  unfold every_nth_step. case_bool_decide; reflexivity.
Qed.

Lemma edit_every_nth_zero measure etype pairs w :
  edit_every_nth measure etype 0 pairs w
  = (if existsb (fun i => existsb (fun p => bool_decide (i >= snd p)) pairs)
                (range (Z.of_nat (length measure)))
     then Raised ZeroDivisionError else Returned tt, w).
Proof.
  unfold edit_every_nth. apply for_each_guard. intros i w0.
  apply for_each_guard. intros p w1. apply every_nth_step_zero.
Qed.

Lemma range_elem_of n i : i ∈ range n <-> 0 <= i < n.
Proof.
  unfold range. rewrite list_elem_of_fmap. split.
  - intros (k & -> & Hk). apply elem_of_seq in Hk. lia.
  - intros H. exists (Z.to_nat i). split; [lia|]. apply elem_of_seq. lia.
Qed.

(** X16.  A key with N = 0, as in [every_0th], never changes a cell.  The
    call raises [ZeroDivisionError] when the template is not empty and
    some offset lies below its length, and returns otherwise. *)
Theorem every_zeroth_changes_nothing
    (w : World) (measure : list loc) (etype key digits : string)
    (pairs : list (string * Z)) :
  etype ∈ ["append"; "remove"] ->
  findall_every_nth key = Some digits ->
  int digits = 0 ->
  let r := _edit_template measure etype [(key, VPairs pairs)] w in
  snd r = w
  /\ ((exists p, p ∈ pairs /\ snd p < Z.of_nat (length measure)) /\ measure <> []
      -> fst r = Raised ZeroDivisionError)
  /\ (~ ((exists p, p ∈ pairs /\ snd p < Z.of_nat (length measure)) /\ measure <> [])
      -> fst r = Returned measure).
Proof.
  intros He Hk H0 r. subst r.
  rewrite _edit_template_one by exact He. unfold bind.
  rewrite (edit_shortcut_every_nth _ _ _ digits) by exact Hk.
  rewrite H0, edit_every_nth_zero.
  set (b := existsb _ _).
  assert (Hb : b = true <->
               (exists p, p ∈ pairs /\ snd p < Z.of_nat (length measure))
               /\ measure <> []).
  { unfold b. rewrite existsb_exists. split.
    - intros (i & Hi & Hp). apply existsb_exists in Hp as (p & Hp & Hge).
      apply list_elem_of_In, range_elem_of in Hi.
      apply bool_decide_eq_true in Hge. split.
      + exists p. split; [apply list_elem_of_In; exact Hp|lia].
      + intros ->. simpl in Hi. lia.
    - intros [(p & Hp & Hlt) Hne].
      assert (0 < Z.of_nat (length measure)) by (destruct measure; [congruence|simpl; lia]).
      exists (Z.of_nat (length measure) - 1). split.
      + apply list_elem_of_In, range_elem_of. lia.
      + apply existsb_exists. exists p. split; [apply list_elem_of_In; exact Hp|].
        apply bool_decide_eq_true. lia. }
  destruct b; simpl.
  - split; [reflexivity|]. split; [reflexivity|]. intros N. exfalso. apply N.
    apply Hb. reflexivity.
  - split; [reflexivity|]. split; [|reflexivity]. intros P. apply Hb in P. discriminate.
Qed.

Lemma every_zeroth_changes_nothing_witness :
  _edit_template [0; 1; 2; 3]%nat "append" [("every_0th", VPairs [("kick", 2)])]
                 (studio4 [] [] [] [])
  = (Raised ZeroDivisionError, studio4 [] [] [] []).
Proof.
  destruct (every_zeroth_changes_nothing (studio4 [] [] [] []) [0; 1; 2; 3]%nat
              "append" "every_0th" "0" [("kick", 2)]) as (A & B & _).
  - apply list_elem_of_here.
  - reflexivity.
  - reflexivity.
  - apply injective_projections; [apply B|exact A].
    split; [|discriminate]. exists ("kick", 2). split; [apply list_elem_of_here|simpl; lia].
Defined.

Lemma for_each_raises_midway {A} (l1 l2 : list A) (x : A) (body : A -> Py unit)
    w w1 e :
  for_each l1 body w = (Returned tt, w1) ->
  body x w1 = (Raised e, w1) ->
  for_each (l1 ++ x :: l2) body w = (Raised e, w1).
Proof.
  intros H1 Hx. rewrite for_each_app. erewrite bind_returned by exact H1.
  simpl. erewrite bind_raised by exact Hx. reflexivity.
Qed.

(** X17.  A [single] entry is applied index by index.  When an index is
    out of range the call raises [IndexError] there: the cells the earlier
    indices of the list addressed have been changed and stay changed, the
    later indices are not looked at. *)
Theorem single_is_not_atomic
    (w : World) (measure : list loc) (etype name : string)
    (good rest : list Z) (bad : Z) (w1 : World) :
  etype ∈ ["append"; "remove"] ->
  _edit_template measure etype [("single", VSingle [(name, good)])] w
  = (Returned measure, w1) ->
  bad < - Z.of_nat (length measure) \/ Z.of_nat (length measure) <= bad ->
  _edit_template measure etype [("single", VSingle [(name, good ++ bad :: rest)])] w
  = (Raised IndexError, w1).
Proof.
  intros He Hgood Hbad.
  rewrite _edit_template_one in Hgood |- * by exact He.
  unfold edit_shortcut in *. simpl in *. unfold edit_single in *. simpl in *.
  unfold bind in Hgood.
  destruct (for_each good (cchange_index measure etype name) w) as [[[]|e] w0] eqn:E;
    [|discriminate].
  simpl in Hgood. inversion Hgood; subst w0; clear Hgood.
  erewrite bind_raised; [reflexivity|].
  erewrite bind_raised; [reflexivity|].
  eapply for_each_raises_midway; [exact E|].
  unfold cchange_index. erewrite bind_raised; [reflexivity|].
  apply py_getitem_out_of_range. exact Hbad.
Qed.

Lemma single_is_not_atomic_witness :
  _edit_template [0; 1; 2; 3]%nat "append"
                 [("single", VSingle [("kick", [0; 2] ++ 4 :: [3])])]
                 (studio4 [] [] [] [])
  = (Raised IndexError, studio4 ["kick"] [] ["kick"] []).
Proof.
  apply single_is_not_atomic.
  - apply list_elem_of_here.
  - reflexivity.
  - simpl. lia.
Defined.

(** ** Keys *)

Lemma strip_prefix_app p s : strip_prefix p (String.append p s) = Some s.
Proof.
  induction p as [|a p IH]; simpl; [destruct s; reflexivity|].
  rewrite bool_decide_eq_true_2 by reflexivity. exact IH.
Qed.

Lemma span_digits_app d s :
  all_digits d = true ->
  match s with String c _ => is_digit c = false | EmptyString => True end ->
  span_digits (String.append d s) = (d, s).
Proof.
  intros Hd Hs. induction d as [|a d IH]; simpl.
  - destruct s as [|c s]; [reflexivity|]. simpl. rewrite Hs. reflexivity.
  - unfold all_digits in Hd. simpl in Hd. apply andb_true_iff in Hd as [Ha Hd].
    rewrite Ha. rewrite (IH Hd). reflexivity.
Qed.

Lemma findall_every_nth_unfold s :
  findall_every_nth s
  = match match_every_nth s with
    | Some d => Some d
    | None => match s with
              | String _ r => findall_every_nth r
              | EmptyString => None
              end
    end.
Proof. destruct s; reflexivity. Qed.

(** X18.  A key that begins with [every_], then one or more decimal
    digits, then one of [st], [nd], [rd], [th], is an every-Nth key with N
    the number the digits spell, whatever follows the suffix and whether
    or not the suffix suits the number ([every_2th], [every_3rdXY]); the
    editor then runs the every-Nth edit with that N. *)
Theorem every_nth_keys_are_recognised
    (digits suffix rest : string) (measure : list loc) (etype : string)
    (pairs : list (string * Z)) (w : World) :
  all_digits digits = true ->
  digits <> EmptyString ->
  suffix ∈ ["st"; "nd"; "rd"; "th"] ->
  let key := String.append "every_" (String.append digits (String.append suffix rest)) in
  findall_every_nth key = Some digits
  /\ recognized key = true
  /\ edit_shortcut measure etype key (VPairs pairs) w
     = edit_every_nth measure etype (int digits) pairs w.
Proof.
  intros Hd Hne Hs key.
  assert (Hm : match_every_nth key = Some digits).
  { unfold match_every_nth, key.
    rewrite (strip_prefix_app "every_").
    rewrite span_digits_app; [|exact Hd|].
    - simpl fst. simpl snd.
      rewrite bool_decide_eq_false_2 by exact Hne.
      replace (existsb _ _) with true; [reflexivity|].
      symmetry. apply existsb_exists. exists suffix. split.
      + apply list_elem_of_In. exact Hs.
      + apply bool_decide_eq_true. rewrite strip_prefix_app. eauto.
    - rewrite !elem_of_cons, elem_of_nil in Hs.
      destruct Hs as [->|[->|[->|[->|[]]]]]; reflexivity. }
  assert (Hf : findall_every_nth key = Some digits).
  { rewrite findall_every_nth_unfold, Hm. reflexivity. }
  split; [exact Hf|]. split.
  - unfold recognized. rewrite Hf.
    rewrite (bool_decide_eq_true_2 (is_Some (Some digits))) by eauto.
    apply orb_true_iff. left. apply orb_true_r.
  - apply edit_shortcut_every_nth. exact Hf.
Qed.

Lemma every_nth_keys_are_recognised_witness :
  findall_every_nth "every_12thXY" = Some "12"
  /\ recognized "every_12thXY" = true
  /\ edit_shortcut [0]%nat "append" "every_12thXY" (VPairs [("kick", 0)]) (studio4 [] [] [] [])
     = edit_every_nth [0]%nat "append" (int "12") [("kick", 0)] (studio4 [] [] [] []).
Proof.
  apply (every_nth_keys_are_recognised "12" "th" "XY").
  - reflexivity.
  - discriminate.
  - compute_done.
Defined.

Lemma int_fold_app (l1 l2 : list ascii) acc :
  fold_left (fun acc c => 10 * acc + (Z.of_nat (nat_of_ascii c) - 48)) (l1 ++ l2) acc
  = fold_left (fun acc c => 10 * acc + (Z.of_nat (nat_of_ascii c) - 48)) l2
      (fold_left (fun acc c => 10 * acc + (Z.of_nat (nat_of_ascii c) - 48)) l1 acc).
Proof. apply fold_left_app. Qed.

Lemma list_ascii_of_string_app s1 s2 :
  list_ascii_of_string (String.append s1 s2)
  = list_ascii_of_string s1 ++ list_ascii_of_string s2.
Proof. induction s1 as [|a s1 IH]; simpl; [reflexivity|]. rewrite IH. reflexivity. Qed.

(** X19.  [int] reads the digits as a decimal number: a further digit [c]
    at the end gives ten times the number plus the value of [c], the
    result is never negative, and zeros in front do not count, so
    [every_04th] is [every_4th]. *)
Theorem int_reads_decimal (digits : string) (c : ascii) :
  all_digits digits = true ->
  0 <= int digits
  /\ int (String.append digits (String c EmptyString))
     = 10 * int digits + (Z.of_nat (nat_of_ascii c) - 48)
  /\ int (String "0" digits) = int digits.
Proof.
  intros Hd. split; [|split].
  - unfold int, all_digits in *.
    assert (G : forall l acc, forallb is_digit l = true -> 0 <= acc ->
                0 <= fold_left (fun acc c => 10 * acc + (Z.of_nat (nat_of_ascii c) - 48))
                               l acc).
    { induction l as [|a l IH]; intros acc Hl Hacc; simpl; [exact Hacc|].
      simpl in Hl. apply andb_true_iff in Hl as [Ha Hl]. apply IH; [exact Hl|].
      unfold is_digit in Ha. cbv zeta in Ha. apply andb_true_iff in Ha as [Ha _].
      apply Nat.leb_le in Ha. lia. }
    apply G; [exact Hd|lia].
  - unfold int. rewrite list_ascii_of_string_app, int_fold_app. reflexivity.
  - reflexivity.
Qed.

Lemma int_reads_decimal_witness :
  0 <= int "04" /\ int "04" = int "4" /\ int "120" = 10 * int "12" + 0.
Proof.
  destruct (int_reads_decimal "4" "0"%char eq_refl) as (_ & _ & A).
  destruct (int_reads_decimal "04" "0"%char eq_refl) as (B & _ & _).
  destruct (int_reads_decimal "12" "0"%char eq_refl) as (_ & C & _).
  split; [exact B|]. split; [exact A|]. exact C.
Defined.

(** ** Rendering: what it can and cannot change *)

Lemma reads_ret {A} (a : A) : reads (ret a).
Proof. intros w r w' H. inversion H. reflexivity. Qed.

Lemma reads_raise {A} e : reads (@raise A e).
Proof. intros w r w' H. inversion H. reflexivity. Qed.

Lemma reads_bind {A B} (m : Py A) (k : A -> Py B) :
  reads m -> (forall a, reads (k a)) -> reads (bind m k).
Proof.
  intros Hm Hk w r w' H. unfold bind in H.
  destruct (m w) as [[a|e] w1] eqn:E; apply Hm in E; subst w1.
  - eapply Hk. exact H.
  - inversion H. reflexivity.
Qed.

Lemma reads_for_fold {A S} (l : list A) (body : S -> A -> Py S) :
  (forall acc x, reads (body acc x)) -> forall acc, reads (for_fold l body acc).
Proof.
  intros Hb. induction l as [|x l IH]; intros acc; simpl.
  - apply reads_ret.
  - apply reads_bind; [apply Hb|intros acc'; apply IH].
Qed.

Lemma reads_oneshot x : reads (oneshot x).
Proof.
  intros w r w' H. unfold oneshot in H.
  destruct (oneshots w !! x); inversion H; reflexivity.
Qed.

Lemma reads_read_cell c : reads (read_cell c).
Proof.
  intros w r w' H. unfold read_cell in H.
  destruct (heap w !! c); inversion H; reflexivity.
Qed.

Lemma reads_py_getitem {A} (l : list A) i : reads (py_getitem l i).
Proof. intros w r w' H. apply py_getitem_inv in H. tauto. Qed.

Lemma reads__max_len names : reads (_max_len names).
Proof.
  unfold _max_len. destruct names as [|x r]; [apply reads_ret|].
  apply reads_bind; [apply reads_oneshot|]. intros a.
  apply reads_for_fold. intros acc y.
  apply reads_bind; [apply reads_oneshot|intros b; apply reads_ret].
Qed.

Lemma reads_combine_beat_sounds names max_len :
  reads (combine_beat_sounds names max_len).
Proof.
  unfold combine_beat_sounds. apply reads_for_fold. intros acc y.
  apply reads_bind; [apply reads_oneshot|intros b; apply reads_ret].
Qed.

Lemma reads_canvas measure beat_length repeatable :
  reads (canvas measure beat_length repeatable).
Proof.
  unfold canvas. destruct repeatable; [apply reads_ret|].
  apply reads_bind; [apply reads_py_getitem|]. intros c.
  apply reads_bind; [apply reads_read_cell|]. intros content.
  apply reads_bind; [apply reads__max_len|]. intros m. apply reads_ret.
Qed.

Lemma reads_render_beat spb ml bl im beat ib :
  reads (render_beat spb ml bl im beat ib).
Proof.
  unfold render_beat. apply reads_bind; [apply reads_read_cell|].
  intros [|x r]; [apply reads_ret|].
  apply reads_bind; [apply reads__max_len|]. intros m.
  apply reads_bind; [apply reads_combine_beat_sounds|]. intros a. apply reads_ret.
Qed.

Lemma render_inv measure num_measures repeatable w r w' :
  render measure num_measures repeatable w = (r, w') ->
  (exists e, r = Raised e /\ w' = w)
  \/ (exists audio,
        r = Returned tt
        /\ w' = with_self (set_current_beat (Some
                 {| beat_audio := audio;
                    beat_beats_per_measure := Z.of_nat (length measure);
                    beat_bpm := bpm (self w);
                    beat_num_measures := num_measures;
                    beat_base_note := base_note (self w);
                    beat_measure := measure;
                    beat_repeatable := repeatable |})) w).
Proof.
  unfold render. intros H. unfold bind at 1 in H. unfold get at 1 in H.
  cbv zeta in H. unfold bind at 1 in H.
  destruct (canvas measure _ repeatable w) as [[b0|e] w1] eqn:E0;
    pose proof (reads_canvas _ _ _ _ _ _ E0); subst w1.
  - unfold bind at 1 in H.
    destruct (for_fold (range num_measures) _ b0 w) as [[b1|e] w2] eqn:E1.
    + assert (w2 = w).
      { eapply (reads_for_fold (range num_measures)); [|exact E1].
        intros acc x. apply reads_for_fold. intros acc' ib. apply reads_render_beat. }
      subst w2. inversion H; subst. right. eexists. split; reflexivity.
    + assert (w2 = w).
      { eapply (reads_for_fold (range num_measures)); [|exact E1].
        intros acc x. apply reads_for_fold. intros acc' ib. apply reads_render_beat. }
      subst w2. inversion H; subst. left. eauto.
  - inversion H; subst. left. eauto.
Qed.

(** X20.  A render of a template as it stands ([_no_add=True]) either
    raises and leaves everything as it was, the current beat included, or
    returns having replaced the current beat and nothing else: the new beat
    carries the template it was given, its length, the engine's [bpm] and
    [base_note], and the arguments [num_measures] and [repeatable]; the
    tempo, the stored beats, the library and every cell are untouched. *)
Theorem render_changes_the_current_beat_only
    (measure : list loc) (num_measures : Z) (repeatable : bool)
    (shortcuts : kwargs) (w : World) :
  let r := make_a_beat measure num_measures repeatable true shortcuts w in
  (exists e, fst r = Raised e /\ snd r = w)
  \/ (exists audio,
        fst r = Returned tt
        /\ snd r = with_self (set_current_beat (Some
                     {| beat_audio := audio;
                        beat_beats_per_measure := Z.of_nat (length measure);
                        beat_bpm := bpm (self w);
                        beat_num_measures := num_measures;
                        beat_base_note := base_note (self w);
                        beat_measure := measure;
                        beat_repeatable := repeatable |})) w).
Proof.
  intros r. subst r. unfold make_a_beat, prepare.
  erewrite bind_returned by reflexivity.
  destruct (render measure num_measures repeatable w) as [o w'] eqn:E.
  apply render_inv in E. simpl. exact E.
Qed.

Lemma copy_measure_loop measure (base : nat) :
  forall acc w r w',
    for_fold measure
      (fun acc x => let* content := read_cell x in
                    let* c := new_Mlist content in
                    ret (acc ++ [c])) acc w = (r, w') ->
    self w' = self w /\ oneshots w' = oneshots w
    /\ (exists extra, heap w' = heap w ++ extra)
    /\ (forall copies, r = Returned copies ->
          (base <= length (heap w))%nat ->
          Forall (fun c => (base <= c)%nat) acc ->
          Forall (fun c => (base <= c)%nat) copies).
Proof.
  induction measure as [|x measure IH]; intros acc w r w' H; simpl in H.
  - inversion H; subst. split; [reflexivity|]. split; [reflexivity|].
    split; [exists []; rewrite app_nil_r; reflexivity|].
    intros copies Hc. inversion Hc; subst. auto.
  - unfold bind at 1 in H. unfold bind at 1 in H. unfold read_cell at 1 in H.
    destruct (heap w !! x) as [content|] eqn:Ex.
    + unfold bind at 1 in H. unfold new_Mlist at 1 in H. unfold ret at 1 in H.
      apply IH in H as (H1 & H2 & (extra & H3) & H4). simpl in *.
      split; [exact H1|]. split; [exact H2|].
      split; [exists (content :: extra); rewrite H3, <- app_assoc; reflexivity|].
      intros copies Hc Hbase Hacc. rewrite length_app in H4. simpl in H4.
      apply H4; [exact Hc|lia|]. apply Forall_app. split; [exact Hacc|].
      repeat constructor. exact Hbase.
    + inversion H; subst. split; [reflexivity|]. split; [reflexivity|].
      split; [exists []; rewrite app_nil_r; reflexivity|].
      intros copies Hc. discriminate.
Qed.

Lemma prepare_inv measure shortcuts w r w' :
  prepare measure false shortcuts w = (r, w') ->
  self w' = self w /\ oneshots w' = oneshots w
  /\ (forall c, (c < length (heap w))%nat -> heap w' !! c = heap w !! c).
Proof.
  unfold prepare, copy_measure. intros H. unfold bind at 1 in H.
  destruct (for_fold measure _ [] w) as [[copies|e] w1] eqn:E.
  - apply (copy_measure_loop measure (length (heap w))) in E
      as (H1 & H2 & (extra & H3) & H4).
    specialize (H4 copies eq_refl (le_n _) (Forall_nil_2 _)).
    destruct (confined_call__edit_template copies None shortcuts _ _ _ H)
      as [(F1 & F2 & F3 & F4) _].
    split; [congruence|]. split; [congruence|].
    intros c Hc. rewrite F4.
    + rewrite H3. apply lookup_app_l. exact Hc.
    + intros Hin. rewrite Forall_forall in H4. apply H4 in Hin. lia.
  - inversion H; subst.
    apply (copy_measure_loop measure 0%nat) in E as (H1 & H2 & (extra & H3) & _).
    split; [exact H1|]. split; [exact H2|].
    intros c Hc. rewrite H3. apply lookup_app_l. exact Hc.
Qed.

(** X21.  [make_a_beat] with [_no_add=False] works on copies: however the
    call ends, every cell that existed before it has the content it had,
    and the tempo, the stored beats and the library are untouched; when it
    raises, the current beat is untouched too. *)
Theorem make_a_beat_leaves_existing_cells_alone
    (measure : list loc) (num_measures : Z) (repeatable : bool)
    (shortcuts : kwargs) (w : World) :
  let r := make_a_beat measure num_measures repeatable false shortcuts w in
  (forall c, (c < length (heap w))%nat -> heap (snd r) !! c = heap w !! c)
  /\ oneshots (snd r) = oneshots w
  /\ stored_beats (self (snd r)) = stored_beats (self w)
  /\ bpm (self (snd r)) = bpm (self w)
  /\ base_note (self (snd r)) = base_note (self w)
  /\ _bpm (self (snd r)) = _bpm (self w)
  /\ _spb (self (snd r)) = _spb (self w)
  /\ (forall e, fst r = Raised e ->
        current_beat (self (snd r)) = current_beat (self w)).
Proof.
  intros r. subst r. unfold make_a_beat, bind.
  destruct (prepare measure false shortcuts w) as [[m|e] w1] eqn:E;
    apply prepare_inv in E as (H1 & H2 & H3).
  - destruct (render m num_measures repeatable w1) as [o w2] eqn:R.
    apply render_inv in R as [(e & -> & ->)|(audio & -> & ->)]; simpl.
    + rewrite H1, H2. repeat split; auto.
    + rewrite H1, H2. repeat split; auto. intros e He. discriminate.
  - simpl. rewrite H1, H2. repeat split; auto.
Qed.

Lemma make_a_beat_leaves_existing_cells_alone_witness :
  let w := studio4 ["kick"] [] ["snare"] [] in
  let r := make_a_beat [0; 1; 2; 3]%nat 2 false false
                       [("every_beat", VNames ["hihat"]);
                        ("single", VSingle [("cowbell", [1])])] w in
  fst r = Raised (KeyError "cowbell")
  /\ current_beat (self (snd r)) = current_beat (self w)
  /\ heap (snd r) !! 0%nat = Some ["kick"]
  /\ heap (snd r) !! 2%nat = Some ["snare"].
Proof.
  intros w r.
  destruct (make_a_beat_leaves_existing_cells_alone [0; 1; 2; 3]%nat 2 false
              [("every_beat", VNames ["hihat"]);
               ("single", VSingle [("cowbell", [1])])] w)
    as (Hc & _ & _ & _ & _ & _ & _ & He).
  split; [reflexivity|]. split; [apply (He (KeyError "cowbell")); reflexivity|].
  split; (etransitivity; [apply Hc; simpl; lia|reflexivity]).
Defined.

(** ** The beat store *)

Lemma switch_forced name w :
  switch_current_beat name true w
  = match stored_beats (self w) !! name with
    | Some b => (Returned tt, with_self (set_current_beat b) w)
    | None => (Raised (KeyError name), w)
    end.
Proof.
  unfold switch_current_beat. erewrite bind_returned by reflexivity.
  rewrite andb_false_r. destruct (stored_beats (self w) !! name); reflexivity.
Qed.

Lemma make_a_beat_keeps_store_and_cells
    measure num_measures repeatable no_add shortcuts w r w' :
  make_a_beat measure num_measures repeatable no_add shortcuts w = (r, w') ->
  stored_beats (self w') = stored_beats (self w)
  /\ (forall c, (c < length (heap w))%nat -> heap w' !! c = heap w !! c).
Proof.
  unfold make_a_beat, bind. intros H.
  destruct (prepare measure no_add shortcuts w) as [[m|e] w1] eqn:E.
  - assert (P : self w1 = self w
                /\ forall c, (c < length (heap w))%nat -> heap w1 !! c = heap w !! c).
    { destruct no_add.
      - unfold prepare in E. inversion E; subst. auto.
      - apply prepare_inv in E as (H1 & _ & H3). auto. }
    destruct P as [P1 P2].
    apply render_inv in H as [(e & _ & ->)|(audio & _ & ->)]; simpl;
      rewrite P1; auto.
  - inversion H; subst; clear H. destruct no_add.
    + unfold prepare in E. inversion E.
    + apply prepare_inv in E as (H1 & _ & H3). rewrite H1. auto.
Qed.

(** X22.  A beat stored under a name survives later renders: after
    [store_beat(name)], a [make_a_beat] with any arguments -- [_no_add]
    set or not -- however it ends, and
    [switch_current_beat(name, force=True)], the current beat is the one
    that was current at the time of the store, and the cells of its
    template hold what they held then. *)
Theorem stored_beat_survives_renders
    (w : World) (name : string) (measure : list loc) (num_measures : Z)
    (repeatable no_add : bool) (shortcuts : kwargs) :
  let w1 := snd (store_beat name w) in
  let w2 := snd (make_a_beat measure num_measures repeatable no_add shortcuts w1) in
  let r := switch_current_beat name true w2 in
  fst r = Returned tt
  /\ current_beat (self (snd r)) = current_beat (self w)
  /\ stored_beats (self (snd r)) !! name = Some (current_beat (self w))
  /\ (forall b, current_beat (self w) = Some b ->
        allocated w (beat_measure b) ->
        contents (snd r) (beat_measure b) = contents w (beat_measure b)).
Proof.
  intros w1 w2 r.
  destruct (make_a_beat measure num_measures repeatable no_add shortcuts w1)
    as [o w2'] eqn:E.
  apply make_a_beat_keeps_store_and_cells in E as (Hs & Hc).
  simpl in w2. subst w2.
  assert (Hl : stored_beats (self w2') !! name = Some (current_beat (self w))).
  { rewrite Hs. unfold w1, store_beat, modify. simpl. apply lookup_insert_eq. }
  subst r. rewrite switch_forced, Hl. simpl.
  split; [reflexivity|]. split; [reflexivity|]. split; [exact Hl|].
  intros b Hb Hal. unfold contents. apply map_ext_in. intros c Hin.
  rewrite Hc; [reflexivity|].
  unfold allocated in Hal. rewrite Forall_forall in Hal.
  apply Hal. apply list_elem_of_In. exact Hin.
Qed.

(** The theorem after a render of two kicks: neither a later render with
    additions nor one of the stored template as it stands changes what the
    stored template holds. *)
Lemma stored_beat_survives_renders_witness :
  let w := snd (make_a_beat [0; 1]%nat 1 true false
                            [("every_beat", VNames ["kick"])]
                            (mkWorld (self studio) library [[]; []])) in
  let r := switch_current_beat "a" true
             (snd (make_a_beat [0; 1]%nat 3 false false
                               [("every_beat", VNames ["crash"])]
                               (snd (store_beat "a" w)))) in
  let r' := switch_current_beat "a" true
              (snd (make_a_beat [2; 3]%nat 2 false true []
                                (snd (store_beat "a" w)))) in
  contents (snd r) [2; 3]%nat = [Some ["kick"]; Some ["kick"]]
  /\ contents (snd r') [2; 3]%nat = [Some ["kick"]; Some ["kick"]].
Proof.
  intros w r r'.
  destruct (stored_beat_survives_renders w "a" [0; 1]%nat 3 false false
              [("every_beat", VNames ["crash"])]) as (_ & _ & _ & H).
  destruct (stored_beat_survives_renders w "a" [2; 3]%nat 2 false true [])
    as (_ & _ & _ & H').
  split.
  - etransitivity; [apply (H (mkBeat (mkAudio 1000 [(0, "kick"); (500, "kick")])
                                      2 120 1 4 [2; 3]%nat true))|reflexivity].
    + reflexivity.
    + unfold allocated. simpl. repeat constructor.
  - etransitivity; [apply (H' (mkBeat (mkAudio 1000 [(0, "kick"); (500, "kick")])
                                       2 120 1 4 [2; 3]%nat true))|reflexivity].
    + reflexivity.
    + unfold allocated. simpl. repeat constructor.
Defined.

(** X23.  [switch_current_beat] without [force] refuses as soon as there
    is a current beat, before it looks the name up, and changes nothing;
    otherwise an unknown name is a [KeyError] and changes nothing, and a
    known name makes the stored value current -- also when what was stored
    under it, by a [store_beat] before any render, is no beat at all. *)
Theorem switch_current_beat_outcomes (w : World) (name : string) (force : bool) :
  (is_Some (current_beat (self w)) -> force = false ->
     switch_current_beat name force w = (Raised Exception_beat_exists, w))
  /\ (current_beat (self w) = None \/ force = true ->
      stored_beats (self w) !! name = None ->
      switch_current_beat name force w = (Raised (KeyError name), w))
  /\ (current_beat (self w) = None \/ force = true ->
      forall b, stored_beats (self w) !! name = Some b ->
      switch_current_beat name force w
      = (Returned tt, with_self (set_current_beat b) w))
  /\ (current_beat (self w) = None ->
      (store_beat name ;;; switch_current_beat name force) w
      = store_beat name w).
Proof.
  unfold switch_current_beat.
  split; [|split; [|split]].
  - intros Hc ->. erewrite bind_returned by reflexivity.
    rewrite bool_decide_eq_true_2 by exact Hc. reflexivity.
  - intros Hc Hn. erewrite bind_returned by reflexivity.
    replace (_ && _) with false; [rewrite Hn; reflexivity|].
    destruct Hc as [Hc| ->]; [|symmetry; apply andb_false_r].
    rewrite bool_decide_eq_false_2; [reflexivity|]. rewrite Hc. apply is_Some_None.
  - intros Hc b Hb. erewrite bind_returned by reflexivity.
    replace (_ && _) with false; [rewrite Hb; reflexivity|].
    destruct Hc as [Hc| ->]; [|symmetry; apply andb_false_r].
    rewrite bool_decide_eq_false_2; [reflexivity|]. rewrite Hc. apply is_Some_None.
  - intros Hc. erewrite bind_returned by reflexivity.
    erewrite bind_returned by reflexivity. simpl.
    rewrite Hc. rewrite bool_decide_eq_false_2 by apply is_Some_None. simpl.
    rewrite lookup_insert_eq.
    unfold store_beat, modify, with_self, set_current_beat, set_stored_beats. simpl.
    rewrite ?Hc. reflexivity.
Qed.

Lemma switch_current_beat_outcomes_witness :
  switch_current_beat "nowhere" false studio = (Raised (KeyError "nowhere"), studio)
  /\ (store_beat "a" ;;; switch_current_beat "a" false) studio = store_beat "a" studio.
Proof.
  destruct (switch_current_beat_outcomes studio "nowhere" false) as (_ & A & _).
  destruct (switch_current_beat_outcomes studio "a" false) as (_ & _ & _ & B).
  split; [apply A; [left|]; reflexivity|apply B; reflexivity].
Defined.

(** ** Re-editing the current beat *)

Lemma bind_inv_returned {A B} (m : Py A) (k : A -> Py B) w b w' :
  bind m k w = (Returned b, w') ->
  exists a w1, m w = (Returned a, w1) /\ k a w1 = (Returned b, w').
Proof.
  unfold bind. destruct (m w) as [[a|e] w1]; [eauto|discriminate].
Qed.

Lemma change_bpm_returned o w w' :
  change_bpm o w = (Returned tt, w') ->
  bpm (self w') = default (bpm (self w)) o
  /\ base_note (self w') = base_note (self w)
  /\ current_beat (self w') = current_beat (self w)
  /\ stored_beats (self w') = stored_beats (self w)
  /\ oneshots w' = oneshots w /\ heap w' = heap w
  /\ (tempo_ok (self w) \/ o <> None -> tempo_ok (self w')).
Proof.
  destruct o as [v|].
  - rewrite change_bpm_Some. cbv zeta. case_bool_decide as Hz; [discriminate|].
    intros H. inversion H; subst; clear H. unfold tempo_ok. simpl.
    repeat split; try reflexivity. exact Hz.
  - intros H. inversion H; subst. simpl. repeat (split; [reflexivity|]).
    intros [T|N]; [exact T|congruence].
Qed.

Lemma change_base_note_returned o w w' :
  change_base_note o w = (Returned tt, w') ->
  base_note (self w') = default (base_note (self w)) o
  /\ bpm (self w') = bpm (self w)
  /\ current_beat (self w') = current_beat (self w)
  /\ stored_beats (self w') = stored_beats (self w)
  /\ oneshots w' = oneshots w /\ heap w' = heap w
  /\ (tempo_ok (self w) \/ o <> None -> tempo_ok (self w')).
Proof.
  destruct o as [v|].
  - rewrite change_base_note_Some. cbv zeta.
    destruct (base_note_rejected v); [discriminate|].
    case_bool_decide as Hz; [discriminate|].
    intros H. inversion H; subst; clear H. unfold tempo_ok. simpl.
    repeat split; try reflexivity. exact Hz.
  - intros H. inversion H; subst. simpl. repeat (split; [reflexivity|]).
    intros [T|N]; [exact T|congruence].
Qed.

(** X24.  When [edit_current_beat] returns, the engine has the [bpm] and
    the [base_note] it had before the call, with consistent tempo fields,
    while the new current beat records the tempo asked for (the engine's
    own where none was asked for), the template of the beat that was
    current, and [num_measures] and [repeatable] as the [or] of the
    argument and the stored value.  The mapping from names to stored beats
    and the library are as before, no cell has been allocated, and every
    cell outside the template of the beat that was current holds what it
    held.  The cells of that template are the ones that may have changed,
    and a stored beat that shares them sees the change (C9). *)
Theorem edit_current_beat_restores_the_tempo
    (w w' : World) (bpm' base_note' num_measures : option Z)
    (repeatable : option bool) (remove add : kwargs) :
  edit_current_beat bpm' base_note' num_measures repeatable remove add w
  = (Returned tt, w') ->
  bpm (self w') = bpm (self w)
  /\ base_note (self w') = base_note (self w)
  /\ tempo_ok (self w')
  /\ stored_beats (self w') = stored_beats (self w)
  /\ oneshots w' = oneshots w
  /\ length (heap w') = length (heap w)
  /\ exists cur beat,
       current_beat (self w) = Some cur
       /\ current_beat (self w') = Some beat
       /\ beat_bpm beat = default (bpm (self w)) bpm'
       /\ beat_base_note beat = default (base_note (self w)) base_note'
       /\ beat_measure beat = beat_measure cur
       /\ beat_num_measures beat = or_int num_measures (beat_num_measures cur)
       /\ beat_repeatable beat = or_bool repeatable (beat_repeatable cur)
       /\ (forall c, c ∉ beat_measure cur -> heap w' !! c = heap w !! c).
Proof.
  unfold edit_current_beat. intros H.
  apply bind_inv_returned in H as (x & y & Hg & H).
  unfold get in Hg. inversion Hg; subst x y; clear Hg.
  apply bind_inv_returned in H as ([] & w1 & H1 & H).
  apply bind_inv_returned in H as (x & y & Hg & H).
  unfold get in Hg. inversion Hg; subst x y; clear Hg.
  apply bind_inv_returned in H as ([] & w2 & H2 & H).
  apply bind_inv_returned in H as (x & y & Hg & H).
  unfold get in Hg. inversion Hg; subst x y; clear Hg.
  destruct (current_beat (self w2)) as [cur|] eqn:Hcur; [|discriminate].
  apply bind_inv_returned in H as (m3 & w3 & H3 & H).
  apply bind_inv_returned in H as (m4 & w4 & H4 & H).
  apply bind_inv_returned in H as ([] & w5 & H5 & H).
  apply bind_inv_returned in H as ([] & w6 & H6 & H7).
  apply change_bpm_returned in H1 as (A1 & A2 & A3 & A4 & A5 & A6 & _).
  apply change_base_note_returned in H2 as (B1 & B2 & B3 & B4 & B5 & B6 & _).
  destruct (confined_call__edit_template _ _ _ _ _ _ H3) as [(C1 & C2 & C3 & C4) _].
  destruct (confined_call__edit_template _ _ _ _ _ _ H4) as [(D1 & D2 & D3 & D4) _].
  unfold make_a_beat, prepare in H5. erewrite bind_returned in H5 by reflexivity.
  apply render_inv in H5 as [(e & He & _)|(audio & _ & ->)]; [discriminate|].
  apply change_bpm_returned in H6 as (E1 & E2 & E3 & E4 & E5 & E6 & _).
  apply change_base_note_returned in H7 as (F1 & F2 & F3 & F4 & F5 & F6 & F7).
  simpl in *.
  split; [congruence|]. split; [congruence|].
  split; [apply F7; right; discriminate|].
  split; [congruence|]. split; [congruence|].
  split; [congruence|].
  exists cur. eexists. split; [congruence|].
  split; [rewrite F3, E3; reflexivity|]. simpl.
  split; [congruence|]. split; [congruence|].
  split; [reflexivity|]. split; [reflexivity|]. split; [reflexivity|].
  intros c Hc. rewrite F6, E6, D4, C4 by exact Hc. congruence.
Qed.

(** The theorem at an edit that asks for 140 bpm on eighth notes and adds
    a snare on the second beat: the engine is back at 120 on quarter notes,
    the new beat records 140 and 8, and the cells of the template first
    given, which are no cells of the current beat, are as they were. *)
Lemma edit_current_beat_restores_the_tempo_witness :
  let w := snd (make_a_beat [0; 1]%nat 1 true false
                            [("every_beat", VNames ["kick"])]
                            (mkWorld (self studio) library [[]; []])) in
  let w' := snd (edit_current_beat (Some 140) (Some 8) (Some 4) None []
                                   [("single", VSingle [("snare", [1])])] w) in
  bpm (self w') = 120 /\ base_note (self w') = 4 /\ tempo_ok (self w')
  /\ (beat_bpm <$> current_beat (self w')) = Some 140
  /\ (beat_base_note <$> current_beat (self w')) = Some 8
  /\ length (heap w') = 4%nat
  /\ heap w' !! 0%nat = Some []
  /\ heap w' !! 3%nat = Some ["kick"; "snare"].
Proof.
  intros w w'.
  destruct (edit_current_beat_restores_the_tempo w w' (Some 140) (Some 8) (Some 4)
              None [] [("single", VSingle [("snare", [1])])])
    as (A & B & T & _ & _ & L & cur & beat & Hc & Hb & H1 & H2 & _ & _ & _ & Hout).
  - subst w w'. vm_compute. reflexivity.
  - split; [exact A|]. split; [exact B|]. split; [exact T|].
    split; [rewrite Hb; simpl; rewrite H1; reflexivity|].
    split; [rewrite Hb; simpl; rewrite H2; reflexivity|].
    split; [rewrite L; reflexivity|].
    split; [|reflexivity].
    rewrite Hout; [reflexivity|].
    assert (E : cur = mkBeat (mkAudio 1000 [(0, "kick"); (500, "kick")])
                             2 120 1 4 [2; 3]%nat true)
      by (vm_compute in Hc; congruence).
    rewrite E. simpl. compute_done.
Defined.

(** X25.  [edit_current_beat] when there is no current beat raises
    [TypeError], and it does so after the tempo changes: an engine that
    was asked for a new [bpm] or [base_note] keeps them. *)
Theorem edit_current_beat_without_current_beat
    (w w1 w2 : World) (bpm' base_note' num_measures : option Z)
    (repeatable : option bool) (remove add : kwargs) :
  current_beat (self w) = None ->
  change_bpm bpm' w = (Returned tt, w1) ->
  change_base_note base_note' w1 = (Returned tt, w2) ->
  edit_current_beat bpm' base_note' num_measures repeatable remove add w
  = (Raised TypeError, w2)
  /\ bpm (self w2) = default (bpm (self w)) bpm'
  /\ base_note (self w2) = default (base_note (self w)) base_note'.
Proof.
  intros Hc H1 H2. unfold edit_current_beat.
  erewrite bind_returned by reflexivity.
  erewrite bind_returned by exact H1.
  erewrite bind_returned by reflexivity.
  erewrite bind_returned by exact H2.
  erewrite bind_returned by reflexivity.
  apply change_bpm_returned in H1 as (A1 & A2 & A3 & _).
  apply change_base_note_returned in H2 as (B1 & B2 & B3 & _).
  replace (current_beat (self w2)) with (@None Beat) by congruence.
  split; [reflexivity|]. split; congruence.
Qed.

Lemma edit_current_beat_without_current_beat_witness :
  exists w2,
    edit_current_beat (Some 90) (Some 16) None None [] [] studio = (Raised TypeError, w2)
    /\ bpm (self w2) = 90 /\ base_note (self w2) = 16.
Proof.
  eexists.
  apply (edit_current_beat_without_current_beat studio
           (snd (change_bpm (Some 90) studio))
           (snd (change_base_note (Some 16) (snd (change_bpm (Some 90) studio))))
           (Some 90) (Some 16) None None [] []); reflexivity.
Defined.

(** ** Adding a clip *)

Lemma split_last_aux_no_sep sep s cur :
  sep ∉ list_ascii_of_string s -> split_last_aux sep s cur = cur.
Proof.
  revert cur. induction s as [|c r IH]; intros cur H; simpl; [reflexivity|].
  simpl in H. apply not_elem_of_cons in H as [Hc Hr].
  rewrite bool_decide_eq_false_2 by congruence. apply IH. exact Hr.
Qed.

Lemma split_last_aux_app sep dir file cur :
  sep ∉ list_ascii_of_string file ->
  split_last_aux sep (String.append dir (String sep file)) cur = file.
Proof.
  intros Hf. revert cur. induction dir as [|c r IH]; intros cur; simpl.
  - rewrite bool_decide_eq_true_2 by reflexivity.
    apply split_last_aux_no_sep. exact Hf.
  - case_bool_decide; apply IH.
Qed.

Lemma str_drop_last_app s t :
  str_drop_last (String.length t) (String.append s t) = s.
Proof.
  unfold str_drop_last. cbv zeta. rewrite list_ascii_of_string_app, length_app.
  replace (String.length t) with (length (list_ascii_of_string t))
    by (induction t; simpl; congruence).
  replace (length (list_ascii_of_string s) + length (list_ascii_of_string t)
           - length (list_ascii_of_string t))%nat
    with (length (list_ascii_of_string s)) by lia.
  rewrite take_app_length. apply string_of_list_ascii_of_string.
Qed.

Lemma str_last_app s t :
  str_last (String.length t) (String.append s t) = t.
Proof.
  unfold str_last. cbv zeta. rewrite list_ascii_of_string_app, length_app.
  replace (String.length t) with (length (list_ascii_of_string t))
    by (induction t; simpl; congruence).
  replace (length (list_ascii_of_string s) + length (list_ascii_of_string t)
           - length (list_ascii_of_string t))%nat
    with (length (list_ascii_of_string s)) by lia.
  rewrite drop_app_length. apply string_of_list_ascii_of_string.
Qed.

Lemma string_append_assoc (a b c : string) :
  String.append (String.append a b) c = String.append a (String.append b c).
Proof.
  induction a as [|x a IH]; [reflexivity|].
  change (String x (String.append (String.append a b) c)
          = String x (String.append a (String.append b c))).
  rewrite IH. reflexivity.
Qed.

Lemma path_split (sep : ascii) (dir stem mid post : string) :
  String.append dir (String sep (String.append stem (String.append mid post)))
  = String.append (String.append dir (String sep (String.append stem mid))) post.
Proof.
  rewrite string_append_assoc. f_equal.
  change (String sep (String.append stem (String.append mid post))
          = String sep (String.append (String.append stem mid) post)).
  rewrite string_append_assoc. reflexivity.
Qed.

(** X26.  [add_oneshot] on a path [dir/stem.ext] with an extension of
    three characters and no [name] decodes the file as type [ext] and puts
    the clip in the library under [stem], replacing a clip of that name; a
    given non-empty [name] is used instead; the engine and the cells are
    untouched.  The type is always the last three characters and the
    default name always drops the last four: a file [stem.flac] is decoded
    as type [lac] and named [stem.] with the dot.  When the decoder raises,
    the library is as before. *)
Theorem add_oneshot_names_the_clip
    (sep : ascii) (from_file : string -> string -> outcome AudioSegment)
    (dir stem ext : string) (name : option string) (w : World) :
  sep ∉ list_ascii_of_string stem ->
  sep ∉ list_ascii_of_string ext ->
  sep <> "."%char ->
  let file := String.append stem (String "." ext) in
  let path := String.append dir (String sep file) in
  (String.length ext = 3%nat ->
   forall segment, from_file path ext = Returned segment ->
     add_oneshot sep from_file path name w
     = (Returned tt,
        mkWorld (self w) (<[or_str name stem := segment]> (oneshots w)) (heap w)))
  /\ (forall e3 c, ext = String c e3 -> String.length e3 = 3%nat ->
      forall segment, from_file path e3 = Returned segment ->
        add_oneshot sep from_file path None w
        = (Returned tt,
           mkWorld (self w)
                   (<[String.append stem (String "." EmptyString) := segment]> (oneshots w))
                   (heap w)))
  /\ (forall e, from_file path (str_last 3 path) = Raised e ->
        add_oneshot sep from_file path name w = (Raised e, w)).
Proof.
  intros Hstem Hext Hdot file path.
  assert (Hbase : split_last sep path = file).
  { unfold split_last, path. apply split_last_aux_app.
    unfold file. rewrite list_ascii_of_string_app. simpl.
    rewrite elem_of_app, elem_of_cons. intros [?|[?|?]]; [contradiction|congruence|contradiction]. }
  split; [|split].
  - intros Hlen segment Hseg. unfold add_oneshot. cbv zeta. rewrite Hbase.
    assert (Htype : str_last 3 path = ext).
    { unfold path, file.
      replace (String.append dir (String sep (String.append stem (String "." ext))))
        with (String.append (String.append dir (String sep (String.append stem (String "." EmptyString)))) ext).
      - rewrite <- Hlen. apply str_last_app.
      - symmetry. apply (path_split sep dir stem (String "." EmptyString) ext). }
    assert (Hname : str_drop_last 4 file = stem).
    { unfold file. replace 4%nat with (String.length (String "." ext))
        by (simpl; rewrite Hlen; reflexivity).
      apply str_drop_last_app. }
    rewrite Htype, Hname. unfold bind. rewrite Hseg. reflexivity.
  - intros e3 c -> Hlen segment Hseg. unfold add_oneshot. cbv zeta. rewrite Hbase.
    assert (Htype : str_last 3 path = e3).
    { unfold path, file.
      replace (String.append dir (String sep (String.append stem (String "." (String c e3)))))
        with (String.append (String.append dir (String sep (String.append stem (String "." (String c EmptyString))))) e3).
      - rewrite <- Hlen. apply str_last_app.
      - symmetry.
        apply (path_split sep dir stem (String "." (String c EmptyString)) e3). }
    assert (Hname : str_drop_last 4 file
                    = String.append stem (String "." EmptyString)).
    { unfold file.
      replace (String.append stem (String "." (String c e3)))
        with (String.append (String.append stem (String "." EmptyString)) (String c e3))
        by (rewrite string_append_assoc; reflexivity).
      replace 4%nat with (String.length (String c e3))
        by (simpl; rewrite Hlen; reflexivity).
      apply str_drop_last_app. }
    rewrite Htype, Hname. unfold bind. rewrite Hseg. reflexivity.
  - intros e He. unfold add_oneshot. cbv zeta. unfold bind. rewrite He. reflexivity.
Qed.

Lemma add_oneshot_names_the_clip_witness :
  let decode := fun (_ ftype : string) =>
                  if bool_decide (ftype = "wav") then Returned (clip "cowbell" 180)
                  else Raised (KeyError ftype) in
  add_oneshot "/" decode "sounds/cowbell.wav" None studio
  = (Returned tt,
     mkWorld (self studio) (<["cowbell" := clip "cowbell" 180]> library) [])
  /\ add_oneshot "/" decode "sounds/cowbell.flac" None studio
     = (Raised (KeyError "lac"), studio).
Proof.
  intros decode.
  destruct (add_oneshot_names_the_clip "/" decode "sounds" "cowbell" "wav" None studio)
    as (A & _ & _); [compute_done|compute_done|discriminate|].
  destruct (add_oneshot_names_the_clip "/" decode "sounds" "cowbell" "flac" None studio)
    as (_ & _ & B); [compute_done|compute_done|discriminate|].
  split.
  - apply A; reflexivity.
  - apply B. reflexivity.
Defined.
